(** * The timed quiz engine of [quiz.py]: a shallow embedding

    [QuizGame] keeps its session in the fields of one object and talks to the
    console, the wall clock, the random generator and one JSON file.  The
    embedding threads two records through every method: [QuizGame] (the
    fields of [self]) and [World] (what the methods read from and write to
    outside the object).  A method is a function from that pair to a result
    and a new pair; a result is a value, a Python exception, or [Hang] when
    the call never returns.

    Numbers.  Python mixes [int] and [float] in [score], in the clock values
    and in the percentage.  They are embedded as rationals ([Q]): every
    comparison of the source ([> 10], [< 5], [>= 90], ...) is a comparison of
    rationals here, and sums of [1] and [0.5] are exact in both.

    Strings.  [string] is the standard library's list of 8-bit characters;
    [upper] maps the ASCII letters a..z to A..Z and leaves every other
    character alone, which is [str.upper] on ASCII text. *)

From Stdlib Require Import QArith Lqa String Ascii List Bool Lia.
From stdpp Require Import gmap strings list sorting pretty.

Local Open Scope string_scope.
Local Open Scope list_scope.

(** ** Strings *)

Definition upper_ascii (c : ascii) : ascii :=
  let n := nat_of_ascii c in
  if ((97 <=? n) && (n <=? 122))%nat then ascii_of_nat (n - 32) else c.

Fixpoint upper (s : string) : string :=
  match s with
  | EmptyString => EmptyString
  | String c s' => String (upper_ascii c) (upper s')
  end.

(** ** Rationals: the two strict comparisons the source uses *)

(** [x < y] as a boolean. *)
Definition Qltb (x y : Q) : bool := negb (Qle_bool y x).

(** ** Data model *)

(** One entry of [question['options']]: [{"letter": ..., "text": ...}]. *)
Record Choice := { letter : string; text : string }.

(** A question record is a Python dict read from JSON.  Each key may be
    absent: [q['k']] on an absent key raises [KeyError], [q.get('k')] gives
    [None]. *)
Record Question := {
  question : option string;
  options : option (list Choice);
  correct_answer : option string;
  category : option string;
  difficulty : option string
}.

(** The dict that [check_answer] appends to [self.user_answers]. *)
Record AnswerRecord := {
  answered_question : string;   (* 'question' *)
  user_answer : string;         (* 'user_answer' *)
  expected_answer : string;     (* 'correct_answer' *)
  is_correct : bool             (* 'is_correct' *)
}.

(** The four branches of the performance feedback in [show_results]. *)
Inductive Tier :=
| Excellent          (* "Excellent! You're a quiz master!" *)
| Great              (* "Great job! You know your stuff!" *)
| Good               (* "Good effort! Keep learning!" *)
| NeedsImprovement.  (* "Keep studying! You'll improve!" *)

(** The fields of a [QuizGame] object.  [filtered_questions] is created by
    [run]; it is listed with the others. *)
Record QuizGame := {
  questions : list Question;
  score : Q;
  current_question : nat;
  quiz_start_time : Q;
  quiz_duration : Q;
  user_answers : list AnswerRecord;
  categories : gset string;
  selected_category : option string;
  difficulty_levels : list string;
  selected_difficulty : option string;
  filtered_questions : list Question
}.

(** [QuizGame.__init__]. *)
Definition init : QuizGame := {|
  questions := [];
  score := 0;
  current_question := 0;
  quiz_start_time := 0;
  quiz_duration := 0;
  user_answers := [];
  categories := ∅;
  selected_category := None;
  difficulty_levels := ["Easy"; "Medium"; "Hard"];
  selected_difficulty := None;
  filtered_questions := []
|}.

(** ** The world outside the object *)

(** What is left to read on standard input.  [Line s rest]: the next call of
    [input()] returns [s].  [Eof]: the stream is closed and [input()] raises
    [EOFError].  [Silent]: no further line ever arrives, and [input()], a
    blocking read, never returns. *)
Inductive Stdin :=
| Line (s : string) (rest : Stdin)
| Eof
| Silent.

(** What [open] and [json.load] give for a file name.  [Parsed None] is a
    JSON object without the key ["questions"]; [Parsed (Some qs)] is an
    object whose ["questions"] entry is the array of records [qs]. *)
Inductive FileContent :=
| FileNotFound
| Unreadable
| Parsed (entry : option (list Question)).

(** The lines the program prints, one constructor per [print] statement (or
    [input] prompt) that carries information; rules and headings made of
    fixed text are left out. *)
Inductive message :=
| MLoaded (n_questions n_categories : nat)
| MFileNotFound (filename : string)
| MLoadError
| MNoMatch
| MShowingAll
| MQuestionNumber (n : nat)
| MQuestionText (s : string)
| MOption (l t : string)
| MPrompt (p : string)
| MTimesUp
| MInvalid
| MFeedback (correct : bool) (expected : string)
| MProgress (i total : nat)
| MCurrentScore (s : Q)
| MBonus
| MNoQuestions
| MFinalScore (s : Q) (total : nat)
| MPercentage (p : Q)
| MTimeTaken (d : Q)
| MTier (t : Tier)
| MReview (i : nat) (a : AnswerRecord).

(** [clock] lists the successive values of [time.time()], [rng] the
    successive raw values of the random generator; [reads] and [draws] count
    how many of each were consumed. *)
Record World := {
  stdin : Stdin;
  stdout : list message;
  clock : nat -> Q;
  reads : nat;
  rng : nat -> nat;
  draws : nat;
  disk : string -> FileContent
}.

Record St := { self : QuizGame; world : World }.

Inductive exn :=
| KeyError (key : string)
| EOFError.

Inductive res (A : Type) :=
| Ok (a : A)
| Raise (e : exn)
| Hang.
Arguments Ok {A} a.
Arguments Raise {A} e.
Arguments Hang {A}.

(** ** Field updates *)

Definition with_self (f : QuizGame -> QuizGame) (st : St) : St :=
  {| self := f (self st); world := world st |}.

Definition with_world (f : World -> World) (st : St) : St :=
  {| self := self st; world := f (world st) |}.

Definition set_questions (v : list Question) (g : QuizGame) : QuizGame :=
  {| questions := v; score := score g; current_question := current_question g;
     quiz_start_time := quiz_start_time g; quiz_duration := quiz_duration g;
     user_answers := user_answers g; categories := categories g;
     selected_category := selected_category g;
     difficulty_levels := difficulty_levels g;
     selected_difficulty := selected_difficulty g;
     filtered_questions := filtered_questions g |}.

Definition set_categories (v : gset string) (g : QuizGame) : QuizGame :=
  {| questions := questions g; score := score g;
     current_question := current_question g;
     quiz_start_time := quiz_start_time g; quiz_duration := quiz_duration g;
     user_answers := user_answers g; categories := v;
     selected_category := selected_category g;
     difficulty_levels := difficulty_levels g;
     selected_difficulty := selected_difficulty g;
     filtered_questions := filtered_questions g |}.

Definition set_score (v : Q) (g : QuizGame) : QuizGame :=
  {| questions := questions g; score := v;
     current_question := current_question g;
     quiz_start_time := quiz_start_time g; quiz_duration := quiz_duration g;
     user_answers := user_answers g; categories := categories g;
     selected_category := selected_category g;
     difficulty_levels := difficulty_levels g;
     selected_difficulty := selected_difficulty g;
     filtered_questions := filtered_questions g |}.

Definition set_current_question (v : nat) (g : QuizGame) : QuizGame :=
  {| questions := questions g; score := score g; current_question := v;
     quiz_start_time := quiz_start_time g; quiz_duration := quiz_duration g;
     user_answers := user_answers g; categories := categories g;
     selected_category := selected_category g;
     difficulty_levels := difficulty_levels g;
     selected_difficulty := selected_difficulty g;
     filtered_questions := filtered_questions g |}.

Definition set_quiz_start_time (v : Q) (g : QuizGame) : QuizGame :=
  {| questions := questions g; score := score g;
     current_question := current_question g;
     quiz_start_time := v; quiz_duration := quiz_duration g;
     user_answers := user_answers g; categories := categories g;
     selected_category := selected_category g;
     difficulty_levels := difficulty_levels g;
     selected_difficulty := selected_difficulty g;
     filtered_questions := filtered_questions g |}.

Definition set_quiz_duration (v : Q) (g : QuizGame) : QuizGame :=
  {| questions := questions g; score := score g;
     current_question := current_question g;
     quiz_start_time := quiz_start_time g; quiz_duration := v;
     user_answers := user_answers g; categories := categories g;
     selected_category := selected_category g;
     difficulty_levels := difficulty_levels g;
     selected_difficulty := selected_difficulty g;
     filtered_questions := filtered_questions g |}.

Definition set_user_answers (v : list AnswerRecord) (g : QuizGame) : QuizGame :=
  {| questions := questions g; score := score g;
     current_question := current_question g;
     quiz_start_time := quiz_start_time g; quiz_duration := quiz_duration g;
     user_answers := v; categories := categories g;
     selected_category := selected_category g;
     difficulty_levels := difficulty_levels g;
     selected_difficulty := selected_difficulty g;
     filtered_questions := filtered_questions g |}.

Definition set_filtered_questions (v : list Question) (g : QuizGame) : QuizGame :=
  {| questions := questions g; score := score g;
     current_question := current_question g;
     quiz_start_time := quiz_start_time g; quiz_duration := quiz_duration g;
     user_answers := user_answers g; categories := categories g;
     selected_category := selected_category g;
     difficulty_levels := difficulty_levels g;
     selected_difficulty := selected_difficulty g;
     filtered_questions := v |}.

Definition set_selected_category (v : option string) (g : QuizGame) : QuizGame :=
  {| questions := questions g; score := score g;
     current_question := current_question g;
     quiz_start_time := quiz_start_time g; quiz_duration := quiz_duration g;
     user_answers := user_answers g; categories := categories g;
     selected_category := v;
     difficulty_levels := difficulty_levels g;
     selected_difficulty := selected_difficulty g;
     filtered_questions := filtered_questions g |}.

Definition set_selected_difficulty (v : option string) (g : QuizGame) : QuizGame :=
  {| questions := questions g; score := score g;
     current_question := current_question g;
     quiz_start_time := quiz_start_time g; quiz_duration := quiz_duration g;
     user_answers := user_answers g; categories := categories g;
     selected_category := selected_category g;
     difficulty_levels := difficulty_levels g;
     selected_difficulty := v;
     filtered_questions := filtered_questions g |}.

Definition set_stdin (v : Stdin) (w : World) : World :=
  {| stdin := v; stdout := stdout w; clock := clock w; reads := reads w;
     rng := rng w; draws := draws w; disk := disk w |}.

Definition set_stdout (v : list message) (w : World) : World :=
  {| stdin := stdin w; stdout := v; clock := clock w; reads := reads w;
     rng := rng w; draws := draws w; disk := disk w |}.

Definition set_reads (v : nat) (w : World) : World :=
  {| stdin := stdin w; stdout := stdout w; clock := clock w; reads := v;
     rng := rng w; draws := draws w; disk := disk w |}.

Definition set_draws (v : nat) (w : World) : World :=
  {| stdin := stdin w; stdout := stdout w; clock := clock w; reads := reads w;
     rng := rng w; draws := v; disk := disk w |}.

(** ** Primitive effects, as state transformers *)

(** [print(...)]. *)
Definition emit (m : message) (st : St) : St :=
  with_world (fun w => set_stdout (stdout w ++ [m]) w) st.

(** [time.time()]. *)
Definition tick (st : St) : Q * St :=
  (clock (world st) (reads (world st)),
   with_world (fun w => set_reads (S (reads w)) w) st).

(** ** The monad of methods *)

Definition M (A : Type) : Type := St -> res A * St.

Definition ret {A} (a : A) : M A := fun st => (Ok a, st).

Definition bind {A B} (m : M A) (k : A -> M B) : M B :=
  fun st =>
    match m st with
    | (Ok a, st') => k a st'
    | (Raise e, st') => (Raise e, st')
    | (Hang, st') => (Hang, st')
    end.

#[global] Instance M_ret : MRet M := @ret.
#[global] Instance M_bind : MBind M := fun A B k m => bind m k.

Definition raise {A} (e : exn) : M A := fun st => (Raise e, st).

Definition print (m : message) : M unit := fun st => (Ok tt, emit m st).

Definition time_time : M Q := fun st => let (t, st') := tick st in (Ok t, st').

Definition get_self : M QuizGame := fun st => (Ok (self st), st).

Definition update_self (f : QuizGame -> QuizGame) : M unit :=
  fun st => (Ok tt, with_self f st).

(** [input(prompt)]: shows the prompt, then reads one line. *)
Definition input (prompt : string) : M string :=
  fun st =>
    let st := emit (MPrompt prompt) st in
    match stdin (world st) with
    | Line s rest => (Ok s, with_world (set_stdin rest) st)
    | Eof => (Raise EOFError, st)
    | Silent => (Hang, st)
    end.

(** [random.Random._randbelow(n)] for [n > 0]: some number below [n].  The
    raw values of the generator are the world's [rng]. *)
Definition randbelow (n : nat) : M nat :=
  fun st =>
    (Ok (rng (world st) (draws (world st)) `mod` n)%nat,
     with_world (fun w => set_draws (S (draws w)) w) st).

(** [d[key]] on an entry that may be absent. *)
Definition item {A} (key : string) (entry : option A) : M A :=
  match entry with
  | Some v => ret v
  | None => raise (KeyError key)
  end.

(** [time.sleep(...)]: nothing the embedding observes; the clock values are
    arbitrary already. *)
Definition sleep : M unit := ret tt.

(** ** [load_questions] *)

(** The [try] block either runs to its end or is left by an exception that
    one of the two [except] clauses turns into a printed line.  The records
    are stored as they come: no field is looked at except [category], and
    only to collect the category names. *)
Definition load_questions (filename : string) : M unit :=
  fun st =>
    match disk (world st) filename with
    | FileNotFound => print (MFileNotFound filename) st
    | Unreadable => print MLoadError st
    | Parsed None => print MLoadError st
    | Parsed (Some qs) =>
        (update_self (set_questions qs);;
         update_self (set_categories (list_to_set (omap category qs)));;
         g ← get_self;
         print (MLoaded (length (questions g)) (size (categories g)))) st
    end.

(** ** [filter_questions] *)

(** Python truth value of a field that holds [None] or a string. *)
Definition truthy (o : option string) : bool :=
  match o with
  | Some s => negb (String.eqb s "")
  | None => false
  end.

(** [a != b] on values that are [None] or a string. *)
Definition differs (a b : option string) : bool :=
  match a, b with
  | Some x, Some y => negb (String.eqb x y)
  | None, None => false
  | _, _ => true
  end.

(** The body of the filtering loop: [true] when neither [continue] is taken
    and [q] is appended to [filtered]. *)
Definition keeps (g : QuizGame) (q : Question) : bool :=
  if truthy (selected_category g) && differs (category q) (selected_category g)
  then false
  else if truthy (selected_difficulty g)
          && differs (difficulty q) (selected_difficulty g)
  then false
  else true.

(** [x[i], x[j] = x[j], x[i]] for indices inside the list. *)
Definition swap {A} (i j : nat) (x : list A) : list A :=
  match x !! i, x !! j with
  | Some a, Some b => <[j:=a]> (<[i:=b]> x)
  | _, _ => x
  end.

(** The loop of [random.shuffle]: for [i = k, k-1, ..., 1], draw
    [j = randbelow(i + 1)] and exchange [x[i]] and [x[j]]. *)
Fixpoint shuffle_from {A} (k : nat) (x : list A) : M (list A) :=
  match k with
  | O => mret x
  | S k' => j ← randbelow (S k); shuffle_from k' (swap k j x)
  end.

(** [random.shuffle(x)]: the loop runs over [reversed(range(1, len(x)))]. *)
Definition shuffle {A} (x : list A) : M (list A) :=
  shuffle_from (length x - 1) x.

Definition filter_questions : M (list Question) :=
  g ← get_self;
  let filtered := List.filter (keeps g) (questions g) in
  match filtered with
  | [] => print MNoMatch;; print MShowingAll;; mret (questions g)
  | _ :: _ => shuffled ← shuffle filtered; mret (take 10 shuffled)
  end.

(** ** [ask_question] *)

(** How the prompt for one question ends; each constructor is one [return]
    statement of [ask_question]. *)
Inductive Resolution :=
| Answered (answer : string) (quick : bool)  (* return answer, time_taken < 5 *)
| Skipped                                    (* return None, False after 'S' *)
| TimedOut.                                  (* return None, False after the time check *)

(** The pair that [ask_question] returns. *)
Definition yield (r : Resolution) : option string * bool :=
  match r with
  | Answered a quick => (Some a, quick)
  | Skipped => (None, false)
  | TimedOut => (None, false)
  end.

Definition answer_prompt : string := "Your answer (letter) or 'S' to skip: ".

(** The [while True] loop.  Each turn reads one line, so the loop is a
    recursion on what standard input still holds; [st] carries the same
    input in its world. *)
Fixpoint prompt_loop (letters : list string) (start_time : Q)
    (pending : Stdin) (st : St) : res Resolution * St :=
  let st := emit (MPrompt answer_prompt) st in
  match pending with
  | Silent => (Hang, st)
  | Eof => (Raise EOFError, st)
  | Line s rest =>
      let st := with_world (set_stdin rest) st in
      let answer := upper s in
      let (now, st) := tick st in
      if Qltb 10 (now - start_time) then (Ok TimedOut, emit MTimesUp st)
      else if String.eqb answer "S" then (Ok Skipped, st)
      else if existsb (String.eqb answer) letters then
        let (now', st) := tick st in
        (Ok (Answered answer (Qltb (now' - start_time) 5)), st)
      else prompt_loop letters start_time rest (emit MInvalid st)
  end.

Definition show_option (opt : Choice) : M unit :=
  print (MOption (letter opt) (text opt)).

Fixpoint for_each {A} (body : A -> M unit) (l : list A) : M unit :=
  match l with
  | [] => mret tt
  | a :: l' => body a;; for_each body l'
  end.

(** The loop, started on the input that the world holds. *)
Definition prompt (letters : list string) (start_time : Q) : M Resolution :=
  fun st => prompt_loop letters start_time (stdin (world st)) st.

(** The terminal state the prompt reaches, before it is turned into the
    returned pair. *)
Definition ask_question_state (q : Question) : M Resolution :=
  g ← get_self;
  print (MQuestionNumber (current_question g + 1));;
  qtext ← item "question" (question q);
  print (MQuestionText qtext);;
  opts ← item "options" (options q);
  for_each show_option opts;;
  start_time ← time_time;
  prompt (map letter opts) start_time.

Definition ask_question (q : Question) : M (option string * bool) :=
  r ← ask_question_state q; mret (yield r).

(** ** [check_answer] *)

Definition add_score (d : Q) : M unit :=
  update_self (fun g => set_score (score g + d) g).

Definition check_answer (answer : string) (q : Question) : M unit :=
  expected ← item "correct_answer" (correct_answer q);
  let correct := String.eqb answer expected in
  (if correct then add_score 1 else mret tt);;
  qtext ← item "question" (question q);
  update_self (fun g =>
    set_user_answers
      (user_answers g ++
         [{| answered_question := qtext; user_answer := answer;
             expected_answer := expected; is_correct := correct |}]) g);;
  print (MFeedback correct expected);;
  sleep.

(** ** [show_progress], [show_results], [review_answers] *)

Definition show_progress : M unit :=
  g ← get_self;
  print (MProgress (current_question g + 1) (length (filtered_questions g)));;
  print (MCurrentScore (score g)).

(** [(self.score / total) * 100 if total > 0 else 0]. *)
Definition percentage (s : Q) (total : nat) : Q :=
  if (0 <? total)%nat then (s / inject_Z (Z.of_nat total)) * 100 else 0.

(** The [if]/[elif] chain of the performance feedback. *)
Definition tier (p : Q) : Tier :=
  if Qle_bool 90 p then Excellent
  else if Qle_bool 70 p then Great
  else if Qle_bool 50 p then Good
  else NeedsImprovement.

Fixpoint review_from (i : nat) (log : list AnswerRecord) : M unit :=
  match log with
  | [] => mret tt
  | a :: log' => print (MReview i a);; review_from (S i) log'
  end.

(** [enumerate(self.user_answers, 1)]. *)
Definition review_answers : M unit :=
  g ← get_self; review_from 1 (user_answers g).

Definition review_prompt : string :=
  "Would you like to review your answers? (Y/N): ".

Definition show_results : M unit :=
  g ← get_self;
  let total := length (filtered_questions g) in
  let p := percentage (score g) total in
  print (MFinalScore (score g) total);;
  print (MPercentage p);;
  print (MTimeTaken (quiz_duration g));;
  print (MTier (tier p));;
  review ← input review_prompt;
  if String.eqb (upper review) "Y" then review_answers else mret tt.

(** ** [run] *)

(** What follows [ask_question] in the body of the question loop: the answer
    is checked and the bonus added only when a letter came back. *)
Definition settle (q : Question) (r : option string * bool) : M unit :=
  match r with
  | (Some answer, is_quick) =>
      check_answer answer q;;
      if is_quick then print MBonus;; add_score (1 # 2) else mret tt
  | (None, _) => mret tt
  end.

(** One turn of [for question in self.filtered_questions].  The turn hands
    back the pair held by its locals [answer, is_quick]; the source drops
    it at the end of the turn. *)
Definition turn (q : Question) : M (option string * bool) :=
  update_self (fun g => set_current_question (current_question g + 1) g);;
  show_progress;;
  r ← ask_question q;
  settle q r;;
  sleep;;
  mret r.

(** The whole loop, with the pairs of its turns in order. *)
Fixpoint turns (qs : list Question) : M (list (option string * bool)) :=
  match qs with
  | [] => mret []
  | q :: qs' => r ← turn q; rs ← turns qs'; mret (r :: rs)
  end.

Definition start_prompt : string := "Press Enter to start the quiz...".

Section Run.

(** The banner and the two menus are console dialogues that come before
    the part studied here; [run] takes them as given procedures. *)
Variables display_welcome select_category select_difficulty : M unit.

Definition run : M unit :=
  load_questions "questions.json";;
  display_welcome;;
  select_category;;
  select_difficulty;;
  selected ← filter_questions;
  update_self (set_filtered_questions selected);;
  match selected with
  | [] => print MNoQuestions
  | _ :: _ =>
      input start_prompt;;
      t0 ← time_time;
      update_self (set_quiz_start_time t0);;
      turns selected;;
      t1 ← time_time;
      g ← get_self;
      update_self (set_quiz_duration (t1 - quiz_start_time g));;
      show_results
  end.

End Run.

(** ** The sample bank written to [questions.json] *)

Definition four_options (a b c d : string) : list Choice :=
  [ {| letter := "A"; text := a |}; {| letter := "B"; text := b |};
    {| letter := "C"; text := c |}; {| letter := "D"; text := d |} ].

Definition sample_q1 : Question := {|
  question := Some "What is the output of 'print(3 * '7')' in Python?";
  options := Some (four_options "21" "777" "TypeError" "37");
  correct_answer := Some "B";
  category := Some "Python Basics";
  difficulty := Some "Easy" |}.

Definition sample_q2 : Question := {|
  question := Some "Which of these is NOT a Python built-in data structure?";
  options := Some (four_options "list" "tuple" "array" "dictionary");
  correct_answer := Some "C";
  category := Some "Python Basics";
  difficulty := Some "Easy" |}.

Definition sample_q3 : Question := {|
  question := Some "What does the 'zip()' function do in Python?";
  options := Some (four_options "Compresses files"
                     "Combines iterables element-wise"
                     "Creates a backup of data" "Encrypts strings");
  correct_answer := Some "B";
  category := Some "Python Functions";
  difficulty := Some "Medium" |}.

Definition sample_data : list Question := [sample_q1; sample_q2; sample_q3].

(** ** Worlds for concrete runs *)

Fixpoint lines (l : list string) (last : Stdin) : Stdin :=
  match l with
  | [] => last
  | s :: l' => Line s (lines l' last)
  end.

(** A world whose clock shows the values of [times] in turn and then stays
    at [late], whose generator always gives [0], with nothing printed yet
    and the sample bank on disk. *)
Definition scripted (input : Stdin) (times : list Q) (late : Q) : World := {|
  stdin := input;
  stdout := [];
  clock := fun n => nth n times late;
  reads := 0;
  rng := fun _ => 0%nat;
  draws := 0;
  disk := fun _ => Parsed (Some sample_data)
|}.

Definition boot (g : QuizGame) (w : World) : St := {| self := g; world := w |}.

(** ** Vocabulary of the statements *)

(** What [show_results] prints before it waits for the review answer. *)
Definition report (g : QuizGame) : list message :=
  let total := length (filtered_questions g) in
  let p := percentage (score g) total in
  [MFinalScore (score g) total; MPercentage p; MTimeTaken (quiz_duration g);
   MTier (tier p); MPrompt review_prompt].

(** What [check_answer] appends for an answer to a question of text [qtext]
    whose expected letter is [expected]. *)
Definition record_of (qtext answer expected : string) : AnswerRecord :=
  {| answered_question := qtext; user_answer := answer;
     expected_answer := expected;
     is_correct := String.eqb answer expected |}.

(** What a turn does to the three fields the session moves. *)
Definition turn_effect (q : Question) (g : QuizGame) (r : res (option string * bool))
    (g' : QuizGame) : Prop :=
  current_question g' = current_question g + 1 /\
  filtered_questions g' = filtered_questions g /\
  (score g <= score g')%Q /\
  match r with
  | Ok (Some answer, quick) =>
      exists expected qtext,
        correct_answer q = Some expected /\
        question q = Some qtext /\
        user_answers g' = user_answers g ++ [record_of qtext answer expected] /\
        (score g' ==
           score g + (if String.eqb answer expected then 1 else 0)
           + (if quick then 1 # 2 else 0))%Q
  | Ok (None, _) =>
      user_answers g' = user_answers g /\ score g' = score g
  | Raise _ | Hang =>
      user_answers g' = user_answers g /\ score g' = score g
  end.

(** A turn whose prompt gave a letter. *)
Definition answered (r : option string * bool) : bool :=
  match r with
  | (Some _, _) => true
  | (None, _) => false
  end.

(** A fresh game in front of a world where [input] holds the lines typed
    and the clock never moves. *)
Definition session (bank : list Question) (typed : list string) : St :=
  boot (set_filtered_questions bank init) (scripted (lines typed Eof) [] 0).

(** The turn returned the expected letter of its question, quickly. *)
Definition quick_and_correct (q : Question) (r : option string * bool) : Prop :=
  exists answer, r = (Some answer, true) /\ correct_answer q = Some answer.









(** The world of [scripted], with [bank] as the parsed content of every
    file. *)
Definition with_bank (bank : option (list Question)) (w : World) : World :=
  {| stdin := stdin w; stdout := stdout w; clock := clock w; reads := reads w;
     rng := rng w; draws := draws w; disk := fun _ => Parsed bank |}.

(** A game that has loaded [bank] and where the two menus gave [cat] and
    [diff]. *)
Definition chosen (bank : list Question) (cat diff : option string) : QuizGame :=
  set_selected_difficulty diff (set_selected_category cat (set_questions bank init)).

(** Eleven questions, all of the sample bank. *)
Definition eleven : list Question :=
  sample_data ++ sample_data ++ sample_data ++ [sample_q1; sample_q2].

(** A bank with one question filed under the empty category name and one
    under a named category. *)
Definition unfiled_question : Question := {|
  question := Some "What does PEP stand for?";
  options := Some (four_options "Python Enhancement Proposal"
                     "Python Execution Plan" "Program Entry Point"
                     "Package Exchange Protocol");
  correct_answer := Some "A";
  category := Some "";
  difficulty := Some "Easy" |}.

Definition mixed_bank : list Question := [unfiled_question; sample_q1].

(** ** The welcome banner and the two menus *)

(** [display_welcome] prints a banner of fixed text and nothing else; the
    transcript keeps none of it. *)
Definition display_welcome : M unit := mret tt.

(** [sorted(self.categories)]: the names in increasing order, strings being
    compared character by character. *)
Definition sorted (names : gset string) : list string :=
  merge_sort String.le (elements names).

(** [for i, x in enumerate(l, i): print(f"{i}. {x}")].  A numbered entry is
    recorded like a lettered one, with its number in decimal. *)
Fixpoint show_entries (i : nat) (l : list string) : M unit :=
  match l with
  | [] => mret tt
  | x :: l' => print (MOption (pretty i) x);; show_entries (S i) l'
  end.

Definition category_prompt : string := "Select category (number): ".
Definition difficulty_prompt : string := "Select difficulty (number): ".

Section Menus.

(** Python's [int] applied to a line of input: the number read, or [None]
    where [int] raises [ValueError]. *)
Variable int : string -> option Z.

(** The [while True] loop of [select_category], left by [break] with the
    number chosen.  [last] is [len(self.categories) + 1].  Both notices,
    "Invalid choice. Please try again." and "Please enter a number.", are
    recorded as [MInvalid]. *)
Fixpoint category_loop (last : Z) (pending : Stdin) (st : St) : res Z * St :=
  let st := emit (MPrompt category_prompt) st in
  match pending with
  | Silent => (Hang, st)
  | Eof => (Raise EOFError, st)
  | Line s rest =>
      let st := with_world (set_stdin rest) st in
      match int s with
      | Some choice =>
          if ((1 <=? choice) && (choice <=? last))%Z then (Ok choice, st)
          else category_loop last rest (emit MInvalid st)
      | None => category_loop last rest (emit MInvalid st)
      end
  end.

(** The loop, started on the input that the world holds. *)
Definition ask_category (last : Z) : M Z :=
  fun st => category_loop last (stdin (world st)) st.

(** [sorted(self.categories)[choice-1]] is read inside the list: the loop
    lets through only numbers from 1 to [len(self.categories) + 1], and the
    last one takes the other branch. *)
Definition select_category : M unit :=
  g ← get_self;
  let n := size (categories g) in
  if (n =? 0)%nat then mret tt
  else
    show_entries 1 (sorted (categories g));;
    print (MOption (pretty (n + 1)%nat) "All Categories");;
    choice ← ask_category (Z.of_nat n + 1);
    if (choice =? Z.of_nat n + 1)%Z
    then update_self (set_selected_category None)
    else update_self
           (set_selected_category
              (sorted (categories g) !! Z.to_nat (choice - 1))).

(** The [while True] loop of [select_difficulty]; the level is stored just
    before the [break]. *)
Fixpoint difficulty_loop (pending : Stdin) (st : St) : res unit * St :=
  let st := emit (MPrompt difficulty_prompt) st in
  match pending with
  | Silent => (Hang, st)
  | Eof => (Raise EOFError, st)
  | Line s rest =>
      let st := with_world (set_stdin rest) st in
      let levels := difficulty_levels (self st) in
      match int s with
      | Some choice =>
          if ((1 <=? choice) && (choice <=? Z.of_nat (length levels)))%Z
          then (Ok tt,
                with_self
                  (set_selected_difficulty (levels !! Z.to_nat (choice - 1)))
                  st)
          else difficulty_loop rest (emit MInvalid st)
      | None => difficulty_loop rest (emit MInvalid st)
      end
  end.

Definition ask_difficulty : M unit :=
  fun st => difficulty_loop (stdin (world st)) st.

Definition select_difficulty : M unit :=
  g ← get_self;
  show_entries 1 (difficulty_levels g);;
  ask_difficulty.

(** [QuizGame.run] with its own banner and menus. *)
Definition run_game : M unit :=
  run display_welcome select_category select_difficulty.

End Menus.

(** A reading of numbers for the examples: a non-empty run of ASCII digits
    is its decimal value, anything else is not a number. *)
Definition digit_value (c : ascii) : option Z :=
  let n := nat_of_ascii c in
  if ((48 <=? n) && (n <=? 57))%nat then Some (Z.of_nat (n - 48)) else None.

Fixpoint decimal_from (acc : Z) (s : string) : option Z :=
  match s with
  | EmptyString => Some acc
  | String c s' =>
      match digit_value c with
      | Some d => decimal_from (10 * acc + d) s'
      | None => None
      end
  end.

Definition decimal (s : string) : option Z :=
  match s with
  | EmptyString => None
  | String _ _ => decimal_from 0 s
  end.

(** The state in which a turn calls [ask_question]: the counter has been
    advanced and the two progress lines are out. *)
Definition entered (st : St) : St :=
  let st1 :=
    with_self (fun g => set_current_question (current_question g + 1) g) st in
  emit (MCurrentScore (score (self st1)))
    (emit (MProgress (current_question (self st1) + 1)
             (length (filtered_questions (self st1)))) st1).

(** The first key that [ask_question] looks up and does not find. *)
Definition missing_prompt_key (q : Question) : string :=
  match question q with
  | None => "question"
  | Some _ => "options"
  end.

(** The first key that [check_answer] looks up and does not find. *)
Definition missing_answer_key (q : Question) : string :=
  match correct_answer q with
  | None => "correct_answer"
  | Some _ => "question"
  end.

(** The point [check_answer] gives for [answer] to [q]. *)
Definition point (q : Question) (answer : string) : Q :=
  match correct_answer q with
  | Some expected => if String.eqb answer expected then 1 else 0
  | None => 0
  end.

(** A turn that earned the bonus: a letter came back, quickly. *)
Definition quick (r : option string * bool) : bool :=
  match r with
  | (Some _, is_quick) => is_quick
  | (None, _) => false
  end.

(** The record that the turn of [q] leaves in the log when its prompt
    returned [r]; none when no letter came back. *)
Definition logged (q : Question) (r : option string * bool) : option AnswerRecord :=
  match r, question q, correct_answer q with
  | (Some answer, _), Some qtext, Some expected =>
      Some (record_of qtext answer expected)
  | _, _, _ => None
  end.

(** The records of a run of turns, in order. *)
Fixpoint session_log (qs : list Question) (outs : list (option string * bool))
    : list AnswerRecord :=
  match qs, outs with
  | q :: qs', r :: outs' =>
      match logged q r with
      | Some a => a :: session_log qs' outs'
      | None => session_log qs' outs'
      end
  | _, _ => []
  end.

(** Number of entries of a list, as a rational. *)
Definition count {A} (l : list A) : Q := inject_Z (Z.of_nat (length l)).

(** What [review_answers] prints for a log: one entry per record, numbered
    from 1. *)
Definition reviews (log : list AnswerRecord) : list message :=
  imap (fun i a => MReview (S i) a) log.

(** The tiers from the lowest to the highest. *)
Definition rank (t : Tier) : nat :=
  match t with
  | NeedsImprovement => 0
  | Good => 1
  | Great => 2
  | Excellent => 3
  end.

(** A line that a menu with entries 1 to [last] turns down: it is not a
    number, or it is a number outside the menu. *)
Definition refused (int : string -> option Z) (last : Z) (s : string) : Prop :=
  match int s with
  | Some choice => ~ (1 <= choice <= last)%Z
  | None => True
  end.

(** What the disk holds gives the game no question: the file is missing,
    unreadable, without the key, or its array is empty. *)
Definition no_bank (c : FileContent) : Prop :=
  match c with
  | Parsed (Some (_ :: _)) => False
  | _ => True
  end.



(** * Properties *)

(** Unfolds the plumbing of the monad so that a method applied to a state
    reduces to the state it yields. *)
Ltac step_m :=
  unfold mbind, M_bind, bind, mret, M_ret, ret, print, update_self, get_self,
    raise, sleep, add_score, time_time, tick in *;
  cbn [fst snd self world with_self with_world emit] in *.

(** ** Comparisons of rationals *)

Lemma Qltb_lt (x y : Q) : Qltb x y = true <-> (x < y)%Q.
Proof.
  unfold Qltb. rewrite negb_true_iff. split.
  - intros H. apply Qnot_le_lt. intros Hle.
    apply Qle_bool_iff in Hle. congruence.
  - intros H. destruct (Qle_bool y x) eqn:E; [|reflexivity].
    apply Qle_bool_iff in E. exfalso. exact (Qlt_not_le _ _ H E).
Qed.


Lemma Qle_bool_false (x y : Q) : Qle_bool x y = false <-> (y < x)%Q.
Proof.
  rewrite <- (Qltb_lt y x). unfold Qltb.
  destruct (Qle_bool x y); simpl; intuition congruence.
Qed.

(** ** The Reporter *)

Lemma tier_cases (p : Q) :
  (tier p = Excellent /\ (90 <= p)%Q) \/
  (tier p = Great /\ (70 <= p < 90)%Q) \/
  (tier p = Good /\ (50 <= p < 70)%Q) \/
  (tier p = NeedsImprovement /\ (p < 50)%Q).
Proof.
  unfold tier.
  destruct (Qle_bool 90 p) eqn:E90.
  { left. split; [reflexivity | now apply Qle_bool_iff]. }
  apply Qle_bool_false in E90.
  destruct (Qle_bool 70 p) eqn:E70.
  { right; left. apply Qle_bool_iff in E70. auto. }
  apply Qle_bool_false in E70.
  destruct (Qle_bool 50 p) eqn:E50.
  { right; right; left. apply Qle_bool_iff in E50. auto. }
  apply Qle_bool_false in E50.
  right; right; right. auto.
Qed.

Lemma review_from_appends (log : list AnswerRecord) :
  forall i st, exists more,
    stdout (world (snd (review_from i log st))) = stdout (world st) ++ more.
Proof.
  induction log as [|a log IH]; intros i st.
  - exists []. simpl. now rewrite app_nil_r.
  - simpl. step_m. destruct (IH (S i) (emit (MReview i a) st)) as [more Hm].
    exists (MReview i a :: more). rewrite Hm. simpl.
    now rewrite <- app_assoc.
Qed.

Lemma show_results_prints (st : St) :
  exists more,
    stdout (world (snd (show_results st))) =
    stdout (world st) ++ report (self st) ++ more.
Proof.
  unfold show_results, report, input. step_m.
  set (w := stdout (world st)).
  repeat rewrite <- app_assoc. simpl.
  destruct (stdin (world st)) as [s rest| |]; simpl.
  - destruct (String.eqb (upper s) "Y").
    + unfold review_answers. step_m.
      match goal with |- context [review_from 1 ?l ?s0] =>
        destruct (review_from_appends l 1 s0) as [more Hm] end.
      exists more. rewrite Hm. subst w. cbn.
      repeat rewrite <- app_assoc. reflexivity.
    + exists []. subst w. cbn. repeat rewrite <- app_assoc. reflexivity.
  - exists []. subst w. cbn. repeat rewrite <- app_assoc. reflexivity.
  - exists []. subst w. cbn. repeat rewrite <- app_assoc. reflexivity.
Qed.

(** C6.  The Reporter: the percentage is [score / total * 100], and [0] when
    there is no question (no division happens); the tier is read off the
    percentage from the top, [>= 90] Excellent, [>= 70] Great, [>= 50] Good,
    anything lower Needs improvement, so that 89.9 is Great, 90.0 is
    Excellent and 49.9 is Needs improvement; [show_results] prints this
    percentage and this tier for the score and the number of questions of
    the session. *)
Theorem reporter_percentage_and_tier :
  forall (s p : Q) (n : nat) (st : St),
    percentage s 0 = 0%Q /\
    percentage s (S n) = (s / inject_Z (Z.of_nat (S n)) * 100)%Q /\
    (tier p = Excellent <-> (90 <= p)%Q) /\
    (tier p = Great <-> (70 <= p < 90)%Q) /\
    (tier p = Good <-> (50 <= p < 70)%Q) /\
    (tier p = NeedsImprovement <-> (p < 50)%Q) /\
    tier (899 # 10) = Great /\
    tier 90 = Excellent /\
    tier (499 # 10) = NeedsImprovement /\
    (exists more,
       stdout (world (snd (show_results st))) =
       stdout (world st) ++
       [MFinalScore (score (self st)) (length (filtered_questions (self st)));
        MPercentage
          (percentage (score (self st)) (length (filtered_questions (self st))));
        MTimeTaken (quiz_duration (self st));
        MTier (tier (percentage (score (self st))
                       (length (filtered_questions (self st)))));
        MPrompt review_prompt] ++ more).
Proof.
  intros s p n st.
  split; [reflexivity|]. split; [reflexivity|].
  pose proof (tier_cases p) as Hc.
  split; [|split; [|split; [|split; [|split; [|split; [|split]]]]]];
    try reflexivity; try exact (show_results_prints st);
    (split; intros Hx;
     destruct Hc as [[E H]|[[E H]|[[E H]|[E H]]]];
     try (rewrite E in Hx; discriminate Hx);
     try exact E; try exact H; exfalso; lra).
Qed.

(** ** The Scorer *)

Lemma check_answer_ok (q : Question) (answer expected qtext : string) (st : St) :
  correct_answer q = Some expected ->
  question q = Some qtext ->
  exists st',
    check_answer answer q st = (Ok tt, st') /\
    user_answers (self st') =
      user_answers (self st) ++ [record_of qtext answer expected] /\
    score (self st') =
      (if String.eqb answer expected then score (self st) + 1
       else score (self st))%Q /\
    current_question (self st') = current_question (self st) /\
    filtered_questions (self st') = filtered_questions (self st).
Proof.
  intros He Hq. unfold check_answer, item. rewrite He, Hq. step_m.
  unfold record_of.
  destruct (String.eqb answer expected); cbn; eexists; repeat split.
Qed.

Lemma check_answer_no_key (q : Question) (answer : string) (st : St) :
  correct_answer q = None ->
  check_answer answer q st = (Raise (KeyError "correct_answer"), st).
Proof.
  intros He. unfold check_answer, item. rewrite He. reflexivity.
Qed.

(** C5.  For an answered question the Scorer appends one record whose
    [is_correct] is [user_answer == correct_answer], adds exactly 1 to the
    score when and only when the answer is correct, and adds exactly 0.5
    when and only when the answer was quick, whether or not it is correct;
    an answer that is not quick earns no bonus. *)
Theorem scorer_counts_answer_and_bonus :
  forall (q : Question) (answer expected qtext : string) (quick : bool) (st : St),
    correct_answer q = Some expected ->
    question q = Some qtext ->
    exists st',
      settle q (Some answer, quick) st = (Ok tt, st') /\
      user_answers (self st') =
        user_answers (self st) ++
        [{| answered_question := qtext; user_answer := answer;
            expected_answer := expected;
            is_correct := String.eqb answer expected |}] /\
      (String.eqb answer expected = true <-> answer = expected) /\
      (score (self st') ==
         score (self st)
         + (if String.eqb answer expected then 1 else 0)
         + (if quick then 1 # 2 else 0))%Q.
Proof.
  intros q answer expected qtext quick st He Hq.
  destruct (check_answer_ok q answer expected qtext st He Hq)
    as (st1 & Hrun & Hlog & Hscore & _ & _).
  unfold settle. step_m. rewrite Hrun.
  destruct quick; cbn; eexists; (split; [reflexivity|]); cbn;
    (split; [exact Hlog|]); (split; [apply String.eqb_eq|]);
    rewrite Hscore; destruct (String.eqb answer expected); ring.
Qed.

Lemma scorer_counts_answer_and_bonus_witness :
  exists st',
    settle sample_q1 (Some "A", true) (boot init (scripted Eof [] 0)) = (Ok tt, st') /\
    user_answers (self st') =
      [] ++
      [{| answered_question := "What is the output of 'print(3 * '7')' in Python?";
          user_answer := "A"; expected_answer := "B";
          is_correct := String.eqb "A" "B" |}] /\
    (String.eqb "A" "B" = true <-> "A" = "B") /\
    (score (self st') == 0 + (if String.eqb "A" "B" then 1 else 0) + (1 # 2))%Q.
Proof.
  exact (scorer_counts_answer_and_bonus sample_q1 "A" "B"
           "What is the output of 'print(3 * '7')' in Python?" true
           (boot init (scripted Eof [] 0)) eq_refl eq_refl).
Defined.

(** ** The prompt never touches the fields of the game *)

Lemma prompt_loop_self (letters : list string) (start_time : Q) :
  forall (pending : Stdin) (st : St),
    self (snd (prompt_loop letters start_time pending st)) = self st.
Proof.
  induction pending as [s rest IH| |]; intros st; cbn;
    try reflexivity.
  destruct (Qltb 10 _); [reflexivity|].
  destruct (String.eqb (upper s) "S"); [reflexivity|].
  destruct (existsb _ letters); [reflexivity|].
  rewrite IH. reflexivity.
Qed.

Lemma for_each_show_option (opts : list Choice) :
  forall st, exists st',
    for_each show_option opts st = (Ok tt, st') /\ self st' = self st.
Proof.
  induction opts as [|o opts IH]; intros st; cbn.
  - eexists; split; reflexivity.
  - unfold mbind, M_bind, bind.
    change (show_option o st)
      with (Ok tt, emit (MOption (letter o) (text o)) st).
    destruct (IH (emit (MOption (letter o) (text o)) st)) as (st' & Hrun & Hself).
    rewrite Hrun. eexists; split; [reflexivity | exact Hself].
Qed.

Lemma ask_question_state_self (q : Question) (st : St) :
  self (snd (ask_question_state q st)) = self st.
Proof.
  unfold ask_question_state, item. step_m.
  destruct (question q) as [qtext|]; [|reflexivity].
  destruct (options q) as [opts|]; [|reflexivity]. cbn.
  match goal with |- context [for_each show_option opts ?s0] =>
    destruct (for_each_show_option opts s0) as (st1 & Hrun & Hself) end.
  rewrite Hrun. unfold prompt. rewrite prompt_loop_self. exact Hself.
Qed.

Lemma ask_question_self (q : Question) (st : St) :
  self (snd (ask_question q st)) = self st.
Proof.
  unfold ask_question. step_m.
  pose proof (ask_question_state_self q st) as H.
  destruct (ask_question_state q st) as [[r| |] st1]; exact H.
Qed.

(** A prompt that returns has read the text of the question. *)
Lemma ask_question_ok_text (q : Question) (st st' : St) (r : option string * bool) :
  ask_question q st = (Ok r, st') -> exists qtext, question q = Some qtext.
Proof.
  unfold ask_question, ask_question_state, item. step_m.
  destruct (question q) as [qtext|]; [eauto | discriminate].
Qed.

(** ** One turn of the question loop *)

(** The game after a turn: the answer (if any) settled on the game whose
    question counter was advanced. *)
Lemma turn_unfold (q : Question) (st : St) :
  exists st1,
    self st1 = set_current_question (current_question (self st) + 1) (self st) /\
    turn q st =
      match ask_question q st1 with
      | (Ok r, st2) =>
          match settle q r st2 with
          | (Ok _, st3) => (Ok r, st3)
          | (Raise e, st3) => (Raise e, st3)
          | (Hang, st3) => (Hang, st3)
          end
      | (Raise e, st2) => (Raise e, st2)
      | (Hang, st2) => (Hang, st2)
      end.
Proof.
  unfold turn, show_progress. step_m.
  eexists; split; [|reflexivity]. reflexivity.
Qed.

Lemma turn_spec (q : Question) (st : St) :
  turn_effect q (self st) (fst (turn q st)) (self (snd (turn q st))).
Proof.
  destruct (turn_unfold q st) as (st1 & Hst1 & ->).
  pose proof (ask_question_self q st1) as Hself.
  destruct (ask_question q st1) as [[r| |] st2] eqn:Hask; cbn in Hself |- *.
  - destruct r as [[answer|] quick].
    + destruct (ask_question_ok_text _ _ _ _ Hask) as [qtext Hq].
      destruct (correct_answer q) as [expected|] eqn:He.
      * destruct (check_answer_ok q answer expected qtext st2 He Hq)
          as (st3 & Hrun & Hlog & Hscore & Hcur & Hfil).
        unfold settle. step_m. rewrite Hrun.
        assert (Hs3 : (score (self st3) ==
                       score (self st)
                       + (if String.eqb answer expected then 1 else 0))%Q).
        { rewrite Hscore, Hself, Hst1. cbn.
          destruct (String.eqb answer expected); ring. }
        assert (Hb : (0 <= (if String.eqb answer expected then 1 else 0))%Q).
        { destruct (String.eqb answer expected); lra. }
        rewrite Hself, Hst1 in Hcur, Hfil, Hlog. cbn in Hcur, Hfil, Hlog.
        destruct quick; unfold turn_effect; cbn;
          (split; [exact Hcur|]); (split; [exact Hfil|]);
          (split; [lra|]); exists expected, qtext;
          (split; [exact He|]); (split; [exact Hq|]);
          (split; [exact Hlog|]); lra.
      * unfold settle. step_m. rewrite (check_answer_no_key q answer st2 He).
        cbn. rewrite Hself, Hst1. cbn.
        repeat split; first [reflexivity | apply Qle_refl].
    + cbn. rewrite Hself, Hst1. cbn. repeat split; first [reflexivity | apply Qle_refl].
  - rewrite Hself, Hst1. cbn. repeat split; first [reflexivity | apply Qle_refl].
  - rewrite Hself, Hst1. cbn. repeat split; first [reflexivity | apply Qle_refl].
Qed.

(** ** The question loop *)

Lemma turns_cons (q : Question) (qs : list Question) (st : St) :
  turns (q :: qs) st =
    match turn q st with
    | (Ok r, st1) =>
        match turns qs st1 with
        | (Ok rs, st2) => (Ok (r :: rs), st2)
        | (Raise e, st2) => (Raise e, st2)
        | (Hang, st2) => (Hang, st2)
        end
    | (Raise e, st1) => (Raise e, st1)
    | (Hang, st1) => (Hang, st1)
    end.
Proof.
  cbn [turns]. unfold mbind, M_bind, bind, mret, M_ret, ret.
  destruct (turn q st) as [[r| |] st1]; reflexivity.
Qed.

(** Running a list of questions is running a first part of it and, when
    that part comes to its end, the rest. *)
Lemma turns_app (qs1 qs2 : list Question) :
  forall st,
    turns (qs1 ++ qs2) st =
      match turns qs1 st with
      | (Ok rs1, st1) =>
          match turns qs2 st1 with
          | (Ok rs2, st2) => (Ok (rs1 ++ rs2), st2)
          | (Raise e, st2) => (Raise e, st2)
          | (Hang, st2) => (Hang, st2)
          end
      | (Raise e, st1) => (Raise e, st1)
      | (Hang, st1) => (Hang, st1)
      end.
Proof.
  induction qs1 as [|q qs1 IH]; intros st.
  - cbn [app turns]. unfold mret, M_ret, ret.
    destruct (turns qs2 st) as [[rs| |] st2]; reflexivity.
  - change ((q :: qs1) ++ qs2) with (q :: (qs1 ++ qs2)).
    rewrite !turns_cons.
    destruct (turn q st) as [[r| |] st1]; try reflexivity.
    rewrite IH.
    destruct (turns qs1 st1) as [[rs1| |] st2]; try reflexivity.
    destruct (turns qs2 st2) as [[rs2| |] st3]; reflexivity.
Qed.

Lemma turns_spec (qs : list Question) :
  forall st,
    (current_question (self (snd (turns qs st)))
       <= current_question (self st) + length qs)%nat /\
    filtered_questions (self (snd (turns qs st))) = filtered_questions (self st) /\
    (score (self st) <= score (self (snd (turns qs st))))%Q /\
    (forall outs,
        fst (turns qs st) = Ok outs ->
        current_question (self (snd (turns qs st)))
          = (current_question (self st) + length qs)%nat /\
        length outs = length qs /\
        length (user_answers (self (snd (turns qs st))))
          = (length (user_answers (self st))
             + length (List.filter answered outs))%nat).
Proof.
  induction qs as [|q qs IH]; intros st.
  - cbn. split; [lia|]. split; [reflexivity|]. split; [apply Qle_refl|].
    intros outs [= <-]. cbn. repeat split; lia.
  - rewrite turns_cons.
    pose proof (turn_spec q st) as (Hcur & Hfil & Hle & Hr).
    destruct (turn q st) as [[r| |] st1]; cbn [fst snd] in *.
    + specialize (IH st1). destruct IH as (IHcur & IHfil & IHle & IHok).
      assert (Hlog : length (user_answers (self st1))
                     = (length (user_answers (self st))
                        + (if answered r then 1 else 0))%nat).
      { destruct r as [[answer|] quick]; cbn.
        - destruct Hr as (e & t & _ & _ & -> & _).
          rewrite length_app. reflexivity.
        - destruct Hr as [-> _]. lia. }
      destruct (turns qs st1) as [[rs| |] st2]; cbn [fst snd length] in *;
        (split; [lia|]); (split; [congruence|]);
        (split; [eapply Qle_trans; eassumption|]);
        intros outs [= <-].
      destruct (IHok rs eq_refl) as (E1 & E2 & E3).
      split; [lia|]. split; [cbn; lia|].
      cbn [List.filter]. destruct (answered r); cbn [length]; lia.
    + cbn [length]. split; [lia|]. split; [exact Hfil|].
      split; [exact Hle|]. intros outs [=].
    + cbn [length]. split; [lia|]. split; [exact Hfil|].
      split; [exact Hle|]. intros outs [=].
Qed.



(** ** A session of quick, correct answers *)

Lemma quick_correct_turns (qs : list Question) :
  forall st outs st',
    turns qs st = (Ok outs, st') ->
    Forall2 quick_and_correct qs outs ->
    (score (self st') ==
       score (self st) + (3 # 2) * inject_Z (Z.of_nat (length qs)))%Q.
Proof.
  induction qs as [|q qs IH]; intros st outs st' Hrun Hall.
  - cbn in Hrun. injection Hrun as <- <-. cbn. ring.
  - rewrite turns_cons in Hrun.
    pose proof (turn_spec q st) as (_ & _ & _ & Hr).
    destruct (turn q st) as [[r| |] st1]; try discriminate.
    destruct (turns qs st1) as [[rs| |] st2] eqn:Hrest; try discriminate.
    injection Hrun as <- <-.
    apply Forall2_cons_1 in Hall. destruct Hall as [(answer & -> & He) Hall].
    cbn [fst snd] in Hr.
    destruct Hr as (expected & qtext & He' & _ & _ & Hs).
    rewrite He in He'. injection He' as <-.
    rewrite String.eqb_refl in Hs.
    rewrite (IH st1 rs st2 Hrest Hall), Hs.
    cbn [length]. rewrite Nat2Z.inj_succ. unfold Z.succ.
    rewrite inject_Z_plus. ring.
Qed.

(** C10.  When every question of a session is answered correctly and
    quickly, the final score is 1.5 times the number of questions; for a
    session that has questions the score is then above their number, the
    percentage is 150, above 100, and the tier is still Excellent. *)
Theorem quick_session_scores_above_total :
  forall (qs : list Question) (st st' : St) (outs : list (option string * bool)),
    (score (self st) == 0)%Q ->
    turns qs st = (Ok outs, st') ->
    Forall2 quick_and_correct qs outs ->
    (score (self st') == (3 # 2) * inject_Z (Z.of_nat (length qs)))%Q /\
    (qs <> [] ->
     (inject_Z (Z.of_nat (length qs)) < score (self st'))%Q /\
     (percentage (score (self st')) (length qs) == 150)%Q /\
     (100 < percentage (score (self st')) (length qs))%Q /\
     tier (percentage (score (self st')) (length qs)) = Excellent).
Proof.
  intros qs st st' outs H0 Hrun Hall.
  assert (Hs : (score (self st') == (3 # 2) * inject_Z (Z.of_nat (length qs)))%Q).
  { rewrite (quick_correct_turns qs st outs st' Hrun Hall), H0. ring. }
  split; [exact Hs|]. intros Hne.
  destruct qs as [|q qs]; [congruence|].
  set (n := length (q :: qs)) in *.
  assert (Hn : (0 < inject_Z (Z.of_nat n))%Q).
  { change 0%Q with (inject_Z 0). rewrite <- Zlt_Qlt. subst n. cbn [length]. lia. }
  assert (Hp : (percentage (score (self st')) n == 150)%Q).
  { change (score (self st') / inject_Z (Z.of_nat n) * 100 == 150)%Q.
    rewrite Hs. field. lra. }
  split; [rewrite Hs; lra|].
  split; [exact Hp|]. split; [rewrite Hp; lra|].
  unfold tier.
  assert (H90 : Qle_bool 90 (percentage (score (self st')) n) = true).
  { apply Qle_bool_iff. rewrite Hp. lra. }
  rewrite H90. reflexivity.
Qed.

Lemma quick_session_scores_above_total_witness :
  let st := session sample_data ["b"; "c"; "b"] in
  let st' := snd (turns sample_data st) in
  (score (self st') == (3 # 2) * inject_Z (Z.of_nat 3))%Q /\
  (sample_data <> [] ->
   (inject_Z (Z.of_nat 3) < score (self st'))%Q /\
   (percentage (score (self st')) 3 == 150)%Q /\
   (100 < percentage (score (self st')) 3)%Q /\
   tier (percentage (score (self st')) 3) = Excellent).
Proof.
  intros st st'.
  assert (H0 : (score (self st) == 0)%Q) by reflexivity.
  assert (Hrun : turns sample_data st =
                 (Ok [(Some "B", true); (Some "C", true); (Some "B", true)], st'))
    by (vm_compute; reflexivity).
  assert (Hall : Forall2 quick_and_correct sample_data
                   [(Some "B", true); (Some "C", true); (Some "B", true)])
    by (repeat constructor; eexists; split; reflexivity).
  exact (quick_session_scores_above_total sample_data st st' _ H0 Hrun Hall).
Defined.

(** ** The Timed Prompt *)

















(** ** The Question Store *)



(** ** The Selector *)




(** *** The filter *)

Lemma differs_false (a b : option string) : differs a b = false <-> a = b.
Proof.
  destruct a as [x|], b as [y|]; cbn; try (split; congruence).
  rewrite negb_false_iff, String.eqb_eq. split; congruence.
Qed.

(** What the loop of [filter_questions] keeps: a selection that is [None]
    or the empty string filters nothing. *)
Lemma keeps_iff (g : QuizGame) (q : Question) :
  keeps g q = true <->
  (truthy (selected_category g) = false \/ category q = selected_category g) /\
  (truthy (selected_difficulty g) = false
   \/ difficulty q = selected_difficulty g).
Proof.
  unfold keeps.
  destruct (truthy (selected_category g)) eqn:Tc;
    destruct (truthy (selected_difficulty g)) eqn:Td; cbn;
    destruct (differs (category q) (selected_category g)) eqn:Dc;
    destruct (differs (difficulty q) (selected_difficulty g)) eqn:Dd; cbn;
    try apply differs_false in Dc; try apply differs_false in Dd;
    split; try tauto; try discriminate;
    intros [[H1|H1] [H2|H2]]; try discriminate;
    try (apply differs_false in H1; congruence);
    try (apply differs_false in H2; congruence).
Qed.

(** *** The shuffle *)

Lemma swap_Permutation {A} (i j : nat) (x : list A) : swap i j x ≡ₚ x.
Proof.
  unfold swap.
  destruct (x !! i) as [a|] eqn:Hi; [|reflexivity].
  destruct (x !! j) as [b|] eqn:Hj; [|reflexivity].
  apply Permutation_insert_swap; assumption.
Qed.

Lemma shuffle_from_spec {A} (k : nat) :
  forall (x : list A) (st : St),
    exists y st',
      shuffle_from k x st = (Ok y, st') /\
      y ≡ₚ x /\
      self st' = self st /\
      draws (world st') = (draws (world st) + k)%nat.
Proof.
  induction k as [|k IH]; intros x st.
  - exists x, st. cbn. repeat split; auto.
  - cbn [shuffle_from]. unfold mbind, M_bind, bind, randbelow.
    match goal with |- context [shuffle_from k ?x1 ?s1] =>
      destruct (IH x1 s1) as (y & st' & Hrun & Hperm & Hself & Hdraws) end.
    exists y, st'. rewrite Hrun. split; [reflexivity|].
    split; [rewrite Hperm; apply swap_Permutation|].
    split; [exact Hself|]. rewrite Hdraws. cbn. lia.
Qed.

(** [random.shuffle] returns, and what it leaves is a rearrangement of the
    list it was given. *)
Lemma shuffle_spec {A} (x : list A) (st : St) :
  exists y st',
    shuffle x st = (Ok y, st') /\ y ≡ₚ x /\ self st' = self st.
Proof.
  unfold shuffle.
  destruct (shuffle_from_spec (length x - 1) x st)
    as (y & st' & Hrun & Hperm & Hself & _).
  exists y, st'. auto.
Qed.

(** When some question passes the filter, the selection is the first ten
    (at most) of a rearrangement of the questions that pass it. *)
Lemma filter_questions_selects (st : St) :
  List.filter (keeps (self st)) (questions (self st)) <> [] ->
  exists shuffled st',
    filter_questions st = (Ok (take 10 shuffled), st') /\
    shuffled ≡ₚ List.filter (keeps (self st)) (questions (self st)) /\
    (length (take 10 shuffled) <= 10)%nat /\
    (forall q, q ∈ take 10 shuffled ->
               q ∈ questions (self st) /\ keeps (self st) q = true) /\
    self st' = self st.
Proof.
  intros Hsome. unfold filter_questions. step_m.
  destruct (List.filter (keeps (self st)) (questions (self st)))
    as [|q0 kept] eqn:Hkept; [congruence|].
  destruct (shuffle_spec (q0 :: kept) st) as (y & st' & Hrun & Hperm & Hself).
  rewrite Hrun. exists y, st'. split; [reflexivity|].
  split; [exact Hperm|]. split; [apply firstn_le_length|].
  split; [|exact Hself].
  intros q Hq. apply elem_of_take in Hq. destruct Hq as (i & Hi & _).
  assert (Hin : q ∈ y) by (eapply list_elem_of_lookup_2; exact Hi).
  rewrite Hperm, <- Hkept in Hin.
  apply list_elem_of_In, filter_In in Hin. destruct Hin as [Hin Hk].
  split; [apply list_elem_of_In; exact Hin | exact Hk].
Qed.

(** C7.  The filter at work where it departs from the rule "kept iff the
    category is None or matches": the category selected is the empty
    string, the name under which [unfiled_question] is filed; the question
    of category "Python Basics" does not match it, and yet it is kept and
    comes back in the selection.  The test [if self.selected_category and
    ...] takes the empty string for no selection. *)
Theorem empty_category_selection_keeps_all :
  let g := chosen mixed_bank (Some "") (Some "Easy") in
  let st := boot g (scripted Eof [] 0) in
  selected_category g <> None /\
  category sample_q1 <> selected_category g /\
  keeps g sample_q1 = true /\
  fst (filter_questions st) = Ok [sample_q1; unfiled_question].
Proof.
  cbv zeta. split; [discriminate|]. split; [discriminate|].
  split; [reflexivity|]. vm_compute. reflexivity.
Qed.

(** * Further properties of the engine *)

(** ** More on the Selector *)

Lemma filter_sublist {A} (f : A -> bool) (l : list A) :
  List.filter f l `sublist_of` l.
Proof.
  induction l as [|a l IH]; cbn; [constructor|].
  destruct (f a); [apply sublist_skip | apply sublist_cons]; exact IH.
Qed.

(** X1.  When at least one question passes the filter, [filter_questions]
    returns [min(10, number of passing questions)] questions; they are
    taken from the bank without repeating any entry more often than the
    bank has it; each of them has the selected category, unless that
    selection is [None] or empty, and the selected difficulty, unless that
    one is [None] or empty; the game is left as it was and the generator
    has been used once per passing question but one. *)
Theorem selection_is_capped_sample :
  forall (st : St),
    List.filter (keeps (self st)) (questions (self st)) <> [] ->
    exists sel st',
      filter_questions st = (Ok sel, st') /\
      length sel
        = (10 `min` length (List.filter (keeps (self st)) (questions (self st))))%nat /\
      sel ⊆+ questions (self st) /\
      (forall q, q ∈ sel ->
         (truthy (selected_category (self st)) = false
          \/ category q = selected_category (self st)) /\
         (truthy (selected_difficulty (self st)) = false
          \/ difficulty q = selected_difficulty (self st))) /\
      self st' = self st /\
      draws (world st')
        = (draws (world st)
           + (length (List.filter (keeps (self st)) (questions (self st))) - 1))%nat.
Proof.
  intros st Hsome. unfold filter_questions. step_m.
  set (kept := List.filter (keeps (self st)) (questions (self st))) in *.
  assert (Hsub : kept `sublist_of` questions (self st))
    by apply filter_sublist.
  assert (Hall : forall q, q ∈ kept -> keeps (self st) q = true).
  { intros q Hq. apply list_elem_of_In, filter_In in Hq. tauto. }
  destruct kept as [|q0 kept'] eqn:Hkept; [congruence|].
  unfold shuffle.
  destruct (shuffle_from_spec (length (q0 :: kept') - 1) (q0 :: kept') st)
    as (y & st' & Hrun & Hperm & Hself & Hdraws).
  rewrite Hrun. exists (take 10 y), st'.
  split; [reflexivity|].
  split; [rewrite length_take, (Permutation_length Hperm); reflexivity|].
  split.
  { etransitivity; [apply sublist_submseteq, sublist_take|].
    etransitivity; [apply Permutation_submseteq, Hperm|].
    apply sublist_submseteq, Hsub. }
  split.
  { intros q Hq. apply keeps_iff, Hall. rewrite <- Hperm.
    eapply elem_of_submseteq; [exact Hq|].
    apply sublist_submseteq, sublist_take. }
  split; [exact Hself | exact Hdraws].
Qed.

Lemma selection_is_capped_sample_witness :
  let st := boot (chosen eleven (Some "Python Basics") (Some "Easy"))
              (scripted Eof [] 0) in
  exists sel st',
    filter_questions st = (Ok sel, st') /\
    length sel
      = (10 `min` length (List.filter (keeps (self st)) (questions (self st))))%nat /\
    sel ⊆+ questions (self st) /\
    (forall q, q ∈ sel ->
       (truthy (selected_category (self st)) = false
        \/ category q = selected_category (self st)) /\
       (truthy (selected_difficulty (self st)) = false
        \/ difficulty q = selected_difficulty (self st))) /\
    self st' = self st /\
    draws (world st')
      = (draws (world st)
         + (length (List.filter (keeps (self st)) (questions (self st))) - 1))%nat.
Proof.
  intros st. apply (selection_is_capped_sample st). discriminate.
Defined.

(** ** More on the Question Store *)





Lemma load_questions_disk (filename : string) (st : St) :
  disk (world (snd (load_questions filename st))) = disk (world st).
Proof.
  unfold load_questions.
  destruct (disk (world st) filename) as [| |[qs|]]; reflexivity.
Qed.

(** X3.  Loading replaces, it does not add: whatever the game held before,
    loading the same file a second time leaves the game exactly as the
    first load left it, when the load succeeds and when it fails. *)
Theorem load_twice_is_load_once :
  forall (filename : string) (st : St),
    self (snd (load_questions filename (snd (load_questions filename st))))
    = self (snd (load_questions filename st)).
Proof.
  intros filename st.
  pose proof (load_questions_disk filename st) as Hdisk.
  unfold load_questions at 1. rewrite Hdisk.
  unfold load_questions.
  destruct (disk (world st) filename) as [| |[qs|]]; reflexivity.
Qed.

(** ** More on the Timed Prompt *)

Lemma ask_question_snd (q : Question) (st : St) :
  snd (ask_question q st) = snd (ask_question_state q st).
Proof.
  unfold ask_question. step_m.
  destruct (ask_question_state q st) as [[r| |] st1]; reflexivity.
Qed.

Lemma prompt_loop_outside (letters : list string) (start_time : Q) :
  forall (pending : Stdin) (st : St),
    draws (world (snd (prompt_loop letters start_time pending st)))
      = draws (world st) /\
    disk (world (snd (prompt_loop letters start_time pending st)))
      = disk (world st) /\
    clock (world (snd (prompt_loop letters start_time pending st)))
      = clock (world st) /\
    stdout (world st)
      `prefix_of` stdout (world (snd (prompt_loop letters start_time pending st))).
Proof.
  induction pending as [s rest IH| |]; intros st; cbn;
    try (repeat split; try reflexivity; apply prefix_app_r; reflexivity).
  destruct (Qltb 10 _).
  { cbn. repeat split; try reflexivity.
    rewrite <- app_assoc. apply prefix_app_r. reflexivity. }
  destruct (String.eqb (upper s) "S").
  { cbn. repeat split; try reflexivity. apply prefix_app_r. reflexivity. }
  destruct (existsb _ letters).
  { cbn. repeat split; try reflexivity. apply prefix_app_r. reflexivity. }
  match goal with |- context [prompt_loop _ _ rest ?s0] =>
    destruct (IH s0) as (Hd & Hk & Hc & Hp) end.
  rewrite Hd, Hk, Hc. cbn. repeat split; try reflexivity.
  etransitivity; [|exact Hp]. cbn. rewrite <- app_assoc.
  apply prefix_app_r. reflexivity.
Qed.

Lemma for_each_show_option_outside (opts : list Choice) :
  forall st st',
    for_each show_option opts st = (Ok tt, st') ->
    draws (world st') = draws (world st) /\
    disk (world st') = disk (world st) /\
    stdout (world st) `prefix_of` stdout (world st').
Proof.
  induction opts as [|o opts IH]; intros st st' H.
  - cbn in H. injection H as <-. repeat split; reflexivity.
  - cbn [for_each] in H. unfold mbind, M_bind, bind in H.
    change (show_option o st)
      with (Ok tt, emit (MOption (letter o) (text o)) st) in H.
    apply IH in H. destruct H as (Hd & Hk & Hp). cbn in Hd, Hk, Hp.
    repeat split; try assumption.
    etransitivity; [|exact Hp]. apply prefix_app_r. reflexivity.
Qed.

(** What [ask_question] prints first, and that it only adds to the
    transcript and leaves generator and disk alone. *)
Lemma ask_question_state_outside (q : Question) (st : St) :
  draws (world (snd (ask_question_state q st))) = draws (world st) /\
  disk (world (snd (ask_question_state q st))) = disk (world st) /\
  (stdout (world st) ++ [MQuestionNumber (current_question (self st) + 1)])
    `prefix_of` stdout (world (snd (ask_question_state q st))).
Proof.
  unfold ask_question_state, item. step_m.
  destruct (question q) as [qtext|]; [|cbn; repeat split; reflexivity].
  destruct (options q) as [opts|].
  2:{ cbn. repeat split; try reflexivity. apply prefix_app_r. reflexivity. }
  cbn.
  match goal with |- context [for_each show_option opts ?s0] =>
    destruct (for_each_show_option opts s0) as (st1 & Hrun & _);
    destruct (for_each_show_option_outside opts s0 st1 Hrun) as (Hd & Hk & Hp)
  end.
  rewrite Hrun. unfold prompt.
  match goal with |- context [prompt_loop ?l ?t ?p ?s1] =>
    destruct (prompt_loop_outside l t p s1) as (Hd' & Hk' & _ & Hp') end.
  cbn in Hd, Hk, Hp, Hd', Hk', Hp' |- *.
  rewrite Hd', Hk', Hd, Hk. repeat split; try reflexivity.
  etransitivity; [|exact Hp']. etransitivity; [|exact Hp].
  apply prefix_app_r. reflexivity.
Qed.

(** X4.  Whatever happens at the prompt (an answer, a skip, a time-out, an
    exception, or no return at all), [ask_question] changes no field of the
    game, draws no random number and leaves the disk alone; its only
    effects are lines read, clock readings and lines printed. *)
Theorem prompt_leaves_game_alone :
  forall (q : Question) (st : St),
    self (snd (ask_question q st)) = self st /\
    draws (world (snd (ask_question q st))) = draws (world st) /\
    disk (world (snd (ask_question q st))) = disk (world st) /\
    stdout (world st) `prefix_of` stdout (world (snd (ask_question q st))).
Proof.
  intros q st. split; [apply ask_question_self|].
  rewrite ask_question_snd.
  destruct (ask_question_state_outside q st) as (Hd & Hk & Hp).
  repeat split; try assumption.
  etransitivity; [|exact Hp]. apply prefix_app_r. reflexivity.
Qed.




Lemma turn_enter (q : Question) (st : St) :
  turn q st =
    match ask_question q (entered st) with
    | (Ok r, st2) =>
        match settle q r st2 with
        | (Ok _, st3) => (Ok r, st3)
        | (Raise e, st3) => (Raise e, st3)
        | (Hang, st3) => (Hang, st3)
        end
    | (Raise e, st2) => (Raise e, st2)
    | (Hang, st2) => (Hang, st2)
    end.
Proof.
  unfold turn, show_progress, entered. step_m. reflexivity.
Qed.

(** X6.  A record that lacks its text or its options cannot be asked:
    [ask_question] raises [KeyError] for the first of the two keys that is
    missing, before any line is read and before the clock is looked at.  In
    the session loop the exception leaves the turn at once: the counter has
    been advanced, score and answer log are untouched, and the questions
    that follow are not asked. *)
Theorem prompt_needs_text_and_options :
  forall (q : Question) (later : list Question) (st : St),
    question q = None \/ options q = None ->
    fst (ask_question q st) = Raise (KeyError (missing_prompt_key q)) /\
    stdin (world (snd (ask_question q st))) = stdin (world st) /\
    reads (world (snd (ask_question q st))) = reads (world st) /\
    fst (turns (q :: later) st) = Raise (KeyError (missing_prompt_key q)) /\
    current_question (self (snd (turns (q :: later) st)))
      = (current_question (self st) + 1)%nat /\
    score (self (snd (turns (q :: later) st))) = score (self st) /\
    user_answers (self (snd (turns (q :: later) st))) = user_answers (self st).
Proof.
  intros q later st Hmiss.
  assert (Hask : forall st0,
             ask_question q st0 =
             (Raise (KeyError (missing_prompt_key q)),
              snd (ask_question q st0)) /\
             stdin (world (snd (ask_question q st0))) = stdin (world st0) /\
             reads (world (snd (ask_question q st0))) = reads (world st0) /\
             self (snd (ask_question q st0)) = self st0).
  { intros st0. unfold ask_question, ask_question_state, item,
      missing_prompt_key. step_m.
    destruct (question q) as [qtext|]; [|cbn; auto].
    destruct (options q) as [opts|]; [|cbn; auto].
    destruct Hmiss; discriminate. }
  destruct (Hask st) as (Hr & Hin & Hrd & _).
  split; [rewrite Hr; reflexivity|]. split; [exact Hin|]. split; [exact Hrd|].
  rewrite turns_cons, turn_enter.
  destruct (Hask (entered st)) as (Hr' & _ & _ & Hself).
  rewrite Hr'. cbn [fst snd]. rewrite Hself. cbn. auto.
Qed.

Lemma prompt_needs_text_and_options_witness :
  let q := {| question := None; options := None; correct_answer := Some "A";
              category := None; difficulty := None |} in
  let st := session [q; sample_q1] ["a"] in
  fst (ask_question q st) = Raise (KeyError "question") /\
  stdin (world (snd (ask_question q st))) = stdin (world st) /\
  reads (world (snd (ask_question q st))) = reads (world st) /\
  fst (turns [q; sample_q1] st) = Raise (KeyError "question") /\
  current_question (self (snd (turns [q; sample_q1] st))) = 1%nat /\
  score (self (snd (turns [q; sample_q1] st))) = score (self st) /\
  user_answers (self (snd (turns [q; sample_q1] st))) = user_answers (self st).
Proof.
  intros q st.
  exact (prompt_needs_text_and_options q [sample_q1] st (or_introl eq_refl)).
Defined.



(** ** More on the Scorer and the question loop *)

Lemma settle_outside (q : Question) (r : option string * bool) (st : St) :
  stdout (world st) `prefix_of` stdout (world (snd (settle q r st))).
Proof.
  destruct r as [[answer|] is_quick]; [|reflexivity].
  unfold settle, check_answer, item. step_m.
  destruct (correct_answer q) as [expected|]; [|reflexivity].
  destruct (String.eqb answer expected), (question q) as [qtext|], is_quick;
    cbn; repeat apply prefix_app_r; reflexivity.
Qed.

(** X8.  The progress display runs one ahead.  A turn first advances the
    question counter and then prints [current_question + 1] in its progress
    line and again in the heading of the question: with [k] questions
    already gone through, the turn of question [k + 1] announces
    "Progress: k+2/n" and "Question k+2:", so the first question of a
    session is announced as the second and the last one of [n] as
    [n+1/n]. *)
Theorem progress_display_runs_ahead :
  forall (q : Question) (st : St),
    (stdout (world st) ++
       [MProgress (current_question (self st) + 2)
          (length (filtered_questions (self st)));
        MCurrentScore (score (self st));
        MQuestionNumber (current_question (self st) + 2)])
    `prefix_of` stdout (world (snd (turn q st))).
Proof.
  intros q st. rewrite turn_enter.
  destruct (ask_question_state_outside q (entered st)) as (_ & _ & Hp).
  rewrite <- ask_question_snd in Hp.
  assert (Hstart :
    stdout (world (entered st)) ++
      [MQuestionNumber (current_question (self (entered st)) + 1)]
    = stdout (world st) ++
        [MProgress (current_question (self st) + 2)
           (length (filtered_questions (self st)));
         MCurrentScore (score (self st));
         MQuestionNumber (current_question (self st) + 2)]).
  { cbn. repeat rewrite <- app_assoc. cbn.
    replace (current_question (self st) + 1 + 1)%nat
      with (current_question (self st) + 2)%nat by lia.
    reflexivity. }
  rewrite Hstart in Hp.
  destruct (ask_question q (entered st)) as [[r| |] st2]; cbn [snd] in Hp |- *;
    try exact Hp.
  pose proof (settle_outside q r st2) as Hs.
  destruct (settle q r st2) as [[u| |] st3]; cbn [snd] in Hs |- *;
    (etransitivity; [exact Hp | exact Hs]).
Qed.

(** X9.  [check_answer] needs the keys ['correct_answer'] and ['question']
    and looks them up in that order, the second one only after the score
    was updated: on a record that lacks one of them it raises [KeyError]
    for the first missing key and appends nothing to the log, and when only
    the text is missing and the answer is correct the point has already
    been added. *)
Theorem check_answer_scores_before_logging :
  forall (q : Question) (answer : string) (st : St),
    correct_answer q = None \/ question q = None ->
    fst (check_answer answer q st) = Raise (KeyError (missing_answer_key q)) /\
    user_answers (self (snd (check_answer answer q st))) = user_answers (self st) /\
    (score (self (snd (check_answer answer q st)))
       == score (self st) + point q answer)%Q /\
    stdout (world (snd (check_answer answer q st))) = stdout (world st).
Proof.
  intros q answer st Hmiss.
  unfold check_answer, item, missing_answer_key, point. step_m.
  destruct (correct_answer q) as [expected|].
  - destruct (question q) as [qtext|]; [destruct Hmiss; discriminate|].
    destruct (String.eqb answer expected); cbn;
      repeat split; try reflexivity; ring.
  - cbn. repeat split; try reflexivity; ring.
Qed.

Lemma check_answer_scores_before_logging_witness :
  let q := {| question := None; options := None; correct_answer := Some "A";
              category := None; difficulty := None |} in
  let st := session [q] [] in
  fst (check_answer "A" q st) = Raise (KeyError "question") /\
  user_answers (self (snd (check_answer "A" q st))) = [] /\
  (score (self (snd (check_answer "A" q st))) == 0 + 1)%Q /\
  stdout (world (snd (check_answer "A" q st))) = [].
Proof.
  intros q st.
  exact (check_answer_scores_before_logging q "A" st (or_intror eq_refl)).
Defined.

(** X10.  The question loop composes: going through [qs1 ++ qs2] is going
    through [qs1] and, if that part comes to its end, going through [qs2]
    from the state reached, the results of the turns being put one after
    the other; if the first part raises or never returns, so does the
    whole, in the same state, and no question of [qs2] is asked. *)
Theorem session_runs_in_parts :
  forall (qs1 qs2 : list Question) (st : St),
    turns (qs1 ++ qs2) st =
      match turns qs1 st with
      | (Ok rs1, st1) =>
          match turns qs2 st1 with
          | (Ok rs2, st2) => (Ok (rs1 ++ rs2), st2)
          | (Raise e, st2) => (Raise e, st2)
          | (Hang, st2) => (Hang, st2)
          end
      | (Raise e, st1) => (Raise e, st1)
      | (Hang, st1) => (Hang, st1)
      end.
Proof.
  intros qs1 qs2 st. apply turns_app.
Qed.

Lemma turn_bounds (q : Question) (st : St) :
  (score (self (snd (turn q st))) <= score (self st) + (3 # 2))%Q /\
  (length (user_answers (self (snd (turn q st))))
     <= length (user_answers (self st)) + 1)%nat.
Proof.
  pose proof (turn_spec q st) as (_ & _ & _ & Hr).
  destruct (fst (turn q st)) as [[[answer|] is_quick]| |].
  - destruct Hr as (expected & qtext & _ & _ & Hlog & Hs).
    rewrite Hlog, length_app. split; [|cbn; lia].
    rewrite Hs. destruct (String.eqb answer expected), is_quick; lra.
  - destruct Hr as [-> ->]. split; [lra | lia].
  - destruct Hr as [-> ->]. split; [lra | lia].
  - destruct Hr as [-> ->]. split; [lra | lia].
Qed.

Lemma turns_bounds (qs : list Question) :
  forall st,
    (score (self (snd (turns qs st))) <= score (self st) + (3 # 2) * count qs)%Q /\
    (length (user_answers (self (snd (turns qs st))))
       <= length (user_answers (self st)) + length qs)%nat.
Proof.
  unfold count.
  induction qs as [|q qs IH]; intros st.
  - cbn [turns length]. unfold mret, M_ret, ret. cbn [snd].
    change (inject_Z (Z.of_nat 0)) with 0%Q. split; [lra | lia].
  - rewrite turns_cons.
    pose proof (turn_bounds q st) as [Hs Hl].
    cbn [length]. rewrite Nat2Z.inj_succ. unfold Z.succ.
    rewrite inject_Z_plus. change (inject_Z 1) with 1%Q.
    assert (Hn : (0 <= inject_Z (Z.of_nat (length qs)))%Q).
    { change 0%Q with (inject_Z 0). rewrite <- Zle_Qle. lia. }
    destruct (turn q st) as [[r| |] st1]; cbn [snd] in Hs, Hl |- *.
    + specialize (IH st1). destruct IH as [IHs IHl].
      destruct (turns qs st1) as [[rs| |] st2]; cbn [snd] in IHs, IHl |- *;
        (split; [lra | lia]).
    + split; [lra | lia].
    + split; [lra | lia].
Qed.

(** X11.  However a run of turns goes (finished, stopped by an exception or
    stuck at a prompt), the score it leaves is at least the score it
    started from and at most 1.5 points per question more, and the log has
    grown by at most one record per question.  For a session started at
    score 0 the percentage that [show_results] computes therefore lies
    between 0 and 150. *)
Theorem score_stays_within_bonus_cap :
  forall (qs : list Question) (st : St),
    (score (self st) <= score (self (snd (turns qs st))))%Q /\
    (score (self (snd (turns qs st))) <= score (self st) + (3 # 2) * count qs)%Q /\
    (length (user_answers (self (snd (turns qs st))))
       <= length (user_answers (self st)) + length qs)%nat /\
    ((score (self st) == 0)%Q ->
     (0 <= percentage (score (self (snd (turns qs st)))) (length qs) <= 150)%Q).
Proof.
  intros qs st.
  pose proof (turns_spec qs st) as (_ & _ & Hlow & _).
  pose proof (turns_bounds qs st) as [Hup Hlog].
  split; [exact Hlow|]. split; [exact Hup|]. split; [exact Hlog|].
  intros H0. rewrite H0 in Hlow, Hup.
  set (s := score (self (snd (turns qs st)))) in *.
  unfold percentage, count in *.
  destruct qs as [|q qs]; [cbn; split; lra|].
  set (n := length (q :: qs)) in *.
  assert (Hn : (0 < inject_Z (Z.of_nat n))%Q).
  { change 0%Q with (inject_Z 0). rewrite <- Zlt_Qlt. subst n. cbn [length]. lia. }
  change ((0 <= s / inject_Z (Z.of_nat n) * 100 <= 150)%Q).
  assert (Hlo : (0 <= s / inject_Z (Z.of_nat n))%Q).
  { apply Qle_shift_div_l; [exact Hn | lra]. }
  assert (Hhi : (s / inject_Z (Z.of_nat n) <= 3 # 2)%Q).
  { apply Qle_shift_div_r; [exact Hn | lra]. }
  split; lra.
Qed.

Lemma score_stays_within_bonus_cap_witness :
  let st := session sample_data ["b"; "s"] in
  (score (self st) <= score (self (snd (turns sample_data st))))%Q /\
  (score (self (snd (turns sample_data st)))
     <= score (self st) + (3 # 2) * count sample_data)%Q /\
  (length (user_answers (self (snd (turns sample_data st))))
     <= length (user_answers (self st)) + length sample_data)%nat /\
  (0 <= percentage (score (self (snd (turns sample_data st))))
          (length sample_data) <= 150)%Q.
Proof.
  intros st.
  destruct (score_stays_within_bonus_cap sample_data st) as (H1 & H2 & H3 & H4).
  split; [exact H1|]. split; [exact H2|]. split; [exact H3|].
  apply H4. reflexivity.
Defined.

Lemma turns_log (qs : list Question) :
  forall st outs st',
    turns qs st = (Ok outs, st') ->
    user_answers (self st') = user_answers (self st) ++ session_log qs outs /\
    (score (self st') ==
       score (self st)
       + count (List.filter is_correct (session_log qs outs))
       + (1 # 2) * count (List.filter quick outs))%Q.
Proof.
  unfold count.
  induction qs as [|q qs IH]; intros st outs st' Hrun.
  - cbn in Hrun. injection Hrun as <- <-. cbn.
    rewrite app_nil_r. split; [reflexivity | ring].
  - rewrite turns_cons in Hrun.
    pose proof (turn_spec q st) as (_ & _ & _ & Hr).
    destruct (turn q st) as [[r| |] st1]; try discriminate.
    destruct (turns qs st1) as [[rs| |] st2] eqn:Hrest; try discriminate.
    injection Hrun as <- <-.
    destruct (IH st1 rs st2 Hrest) as [IHlog IHs].
    cbn [fst snd] in Hr. cbn [session_log].
    destruct r as [[answer|] is_quick].
    + destruct Hr as (expected & qtext & He & Hq & Hlog & Hs).
      unfold logged. rewrite Hq, He.
      split; [rewrite IHlog, Hlog, <- app_assoc; reflexivity|].
      rewrite IHs, Hs. cbn [List.filter quick record_of is_correct].
      destruct (String.eqb answer expected), is_quick; cbn [length];
        rewrite ?Nat2Z.inj_succ; unfold Z.succ; rewrite ?inject_Z_plus;
        change (inject_Z 1) with 1%Q; ring.
    + destruct Hr as [Hlog Hs]. cbn [logged].
      split; [rewrite IHlog, Hlog; reflexivity|].
      rewrite IHs, Hs. cbn [List.filter quick]. ring.
Qed.

(** X12.  When a run of turns comes to its end, the answer log has grown by
    exactly the records of the turns that returned a letter, in the order
    of the questions, each with the text and expected letter of its
    question, the letter given, and [is_correct] telling whether the two
    letters are equal; and the score has grown by one point per record
    marked correct plus half a point per quick answer. *)
Theorem log_and_score_account_for_turns :
  forall (qs : list Question) (st st' : St) (outs : list (option string * bool)),
    turns qs st = (Ok outs, st') ->
    user_answers (self st') = user_answers (self st) ++ session_log qs outs /\
    Forall (fun a => is_correct a = String.eqb (user_answer a) (expected_answer a))
      (session_log qs outs) /\
    (score (self st') ==
       score (self st)
       + count (List.filter is_correct (session_log qs outs))
       + (1 # 2) * count (List.filter quick outs))%Q.
Proof.
  intros qs st st' outs Hrun.
  destruct (turns_log qs st outs st' Hrun) as [Hlog Hs].
  split; [exact Hlog|]. split; [|exact Hs].
  clear. revert outs.
  induction qs as [|q qs IH]; intros [|r outs]; cbn; try constructor.
  destruct (logged q r) as [a|] eqn:Ha; [|apply IH].
  constructor; [|apply IH].
  unfold logged in Ha.
  destruct r as [[answer|] is_quick], (question q), (correct_answer q);
    try discriminate.
  injection Ha as <-. reflexivity.
Qed.

Lemma log_and_score_account_for_turns_witness :
  let st := session sample_data ["b"; "s"; "a"] in
  let outs := [(Some "B", true); (None, false); (Some "A", true)] in
  let st' := snd (turns sample_data st) in
  user_answers (self st') = user_answers (self st) ++ session_log sample_data outs /\
  Forall (fun a => is_correct a = String.eqb (user_answer a) (expected_answer a))
    (session_log sample_data outs) /\
  (score (self st') ==
     score (self st)
     + count (List.filter is_correct (session_log sample_data outs))
     + (1 # 2) * count (List.filter quick outs))%Q.
Proof.
  intros st outs st'.
  assert (Hrun : turns sample_data st = (Ok outs, st'))
    by (vm_compute; reflexivity).
  exact (log_and_score_account_for_turns sample_data st st' outs Hrun).
Defined.

(** ** More on the Reporter *)

Lemma review_from_spec (log : list AnswerRecord) :
  forall i st,
    fst (review_from i log st) = Ok tt /\
    self (snd (review_from i log st)) = self st /\
    stdin (world (snd (review_from i log st))) = stdin (world st) /\
    stdout (world (snd (review_from i log st)))
      = stdout (world st) ++ imap (fun j a => MReview (i + j) a) log.
Proof.
  induction log as [|a log IH]; intros i st.
  - cbn. rewrite app_nil_r. auto.
  - cbn [review_from]. step_m.
    destruct (IH (S i) (emit (MReview i a) st)) as (Hr & Hself & Hin & Hout).
    destruct (review_from (S i) log (emit (MReview i a) st)) as [r st'].
    cbn [fst snd] in *. subst r. cbn.
    split; [reflexivity|]. split; [exact Hself|]. split; [exact Hin|].
    rewrite Hout. cbn. rewrite <- app_assoc. cbn.
    rewrite Nat.add_0_r. do 2 f_equal.
    apply imap_ext. intros j b _. unfold compose. f_equal. lia.
Qed.

(** X13.  [review_answers] always returns; it prints one entry per record
    of the answer log, in the order of the log and numbered from 1, reads
    nothing and changes no field of the game, so a review can be repeated
    and shows the same entries again. *)
Theorem review_replays_log :
  forall (st : St),
    fst (review_answers st) = Ok tt /\
    self (snd (review_answers st)) = self st /\
    stdin (world (snd (review_answers st))) = stdin (world st) /\
    stdout (world (snd (review_answers st)))
      = stdout (world st) ++ reviews (user_answers (self st)) /\
    stdout (world (snd (review_answers (snd (review_answers st)))))
      = stdout (world st) ++ reviews (user_answers (self st))
          ++ reviews (user_answers (self st)).
Proof.
  intros st.
  assert (H : forall st0,
             fst (review_answers st0) = Ok tt /\
             self (snd (review_answers st0)) = self st0 /\
             stdin (world (snd (review_answers st0))) = stdin (world st0) /\
             stdout (world (snd (review_answers st0)))
               = stdout (world st0) ++ reviews (user_answers (self st0))).
  { intros st0. unfold review_answers, reviews. step_m.
    exact (review_from_spec (user_answers (self st0)) 1 st0). }
  destruct (H st) as (Hr & Hself & Hin & Hout).
  destruct (H (snd (review_answers st))) as (_ & _ & _ & Hout2).
  repeat split; try assumption.
  rewrite Hout2, Hself, Hout, <- app_assoc. reflexivity.
Qed.

(** X14.  [show_results] changes no field of the game.  It prints the
    report and then waits for one line: if that line is [Y] or [y] it
    prints the review of the whole log, for any other line (also ["yes"])
    it prints nothing more, and in both cases it returns; if standard input
    is closed it raises [EOFError] after the report, and if no line arrives
    it never returns. *)
Theorem results_then_optional_review :
  forall (st : St),
    self (snd (show_results st)) = self st /\
    match stdin (world st) with
    | Line s rest =>
        fst (show_results st) = Ok tt /\
        stdin (world (snd (show_results st))) = rest /\
        stdout (world (snd (show_results st)))
          = stdout (world st) ++ report (self st)
              ++ (if String.eqb (upper s) "Y"
                  then reviews (user_answers (self st)) else [])
    | Eof =>
        fst (show_results st) = Raise EOFError /\
        stdout (world (snd (show_results st)))
          = stdout (world st) ++ report (self st)
    | Silent =>
        fst (show_results st) = Hang /\
        stdout (world (snd (show_results st)))
          = stdout (world st) ++ report (self st)
    end.
Proof.
  intros st. unfold show_results, report, input. step_m. cbn.
  destruct (stdin (world st)) as [s rest| |]; cbn.
  - destruct (String.eqb (upper s) "Y").
    + unfold review_answers. step_m.
      match goal with |- context [review_from 1 ?l ?s0] =>
        destruct (review_from_spec l 1 s0) as (Hr & Hself & Hin & Hout);
        destruct (review_from 1 l s0) as [r st'] end.
      cbn [fst snd] in *. subst r. cbn in Hself, Hin, Hout |- *.
      split; [exact Hself|]. split; [reflexivity|]. split; [exact Hin|].
      rewrite Hout. unfold reviews. repeat rewrite <- app_assoc. reflexivity.
    + cbn. split; [reflexivity|]. split; [reflexivity|].
      split; [reflexivity|]. repeat rewrite <- app_assoc. reflexivity.
  - split; [reflexivity|]. split; [reflexivity|].
    repeat rewrite <- app_assoc. reflexivity.
  - split; [reflexivity|]. split; [reflexivity|].
    repeat rewrite <- app_assoc. reflexivity.
Qed.

Lemma percentage_monotone (s s' : Q) (n : nat) :
  (s <= s')%Q -> (percentage s n <= percentage s' n)%Q.
Proof.
  intros Hle. unfold percentage.
  destruct n as [|n]; [cbn; lra|].
  change ((s / inject_Z (Z.of_nat (S n)) * 100
           <= s' / inject_Z (Z.of_nat (S n)) * 100)%Q).
  assert (Hn : (0 < inject_Z (Z.of_nat (S n)))%Q).
  { change 0%Q with (inject_Z 0). rewrite <- Zlt_Qlt. lia. }
  apply Qmult_le_compat_r; [|lra].
  unfold Qdiv. apply Qmult_le_compat_r; [exact Hle|].
  apply Qlt_le_weak, Qinv_lt_0_compat, Hn.
Qed.

(** X15.  The report is monotone: for a given number of questions a higher
    score never gives a lower percentage, and a higher percentage never
    gives a lower tier, so scoring more can only keep or raise the tier. *)
Theorem higher_score_never_lowers_tier :
  forall (s s' p p' : Q) (n : nat),
    (p <= p')%Q ->
    (s <= s')%Q ->
    (rank (tier p) <= rank (tier p'))%nat /\
    (percentage s n <= percentage s' n)%Q /\
    (rank (tier (percentage s n)) <= rank (tier (percentage s' n)))%nat.
Proof.
  intros s s' p p' n Hp Hs.
  assert (Hmono : forall a b, (a <= b)%Q -> (rank (tier a) <= rank (tier b))%nat).
  { intros a b Hab.
    destruct (tier_cases a) as [[Ea Ha]|[[Ea Ha]|[[Ea Ha]|[Ea Ha]]]];
      destruct (tier_cases b) as [[Eb Hb]|[[Eb Hb]|[[Eb Hb]|[Eb Hb]]]];
      rewrite Ea, Eb; cbn; try lia; exfalso; lra. }
  split; [apply Hmono, Hp|].
  pose proof (percentage_monotone s s' n Hs) as Hpc.
  split; [exact Hpc | apply Hmono, Hpc].
Qed.

Lemma higher_score_never_lowers_tier_witness :
  (rank (tier 40) <= rank (tier 95))%nat /\
  (percentage 5 10 <= percentage (15 # 2) 10)%Q /\
  (rank (tier (percentage 5 10)) <= rank (tier (percentage (15 # 2) 10)))%nat.
Proof.
  apply (higher_score_never_lowers_tier 5 (15 # 2) 40 95 10).
  - vm_compute. discriminate.
  - vm_compute. discriminate.
Defined.

(** ** The menus *)

Lemma show_entries_spec (l : list string) :
  forall i st,
    fst (show_entries i l st) = Ok tt /\
    self (snd (show_entries i l st)) = self st /\
    stdin (world (snd (show_entries i l st))) = stdin (world st) /\
    reads (world (snd (show_entries i l st))) = reads (world st) /\
    draws (world (snd (show_entries i l st))) = draws (world st) /\
    clock (world (snd (show_entries i l st))) = clock (world st) /\
    rng (world (snd (show_entries i l st))) = rng (world st) /\
    disk (world (snd (show_entries i l st))) = disk (world st) /\
    stdout (world st) `prefix_of` stdout (world (snd (show_entries i l st))).
Proof.
  induction l as [|x l IH]; intros i st.
  - cbn. repeat split; reflexivity.
  - cbn [show_entries]. step_m.
    destruct (IH (S i) (emit (MOption (pretty i) x) st))
      as (Hr & H1 & H2 & H3 & H4 & H5 & H6 & H7 & H8).
    destruct (show_entries (S i) l (emit (MOption (pretty i) x) st)) as [r st'].
    cbn [fst snd] in *. subst r. cbn in *.
    repeat split; try assumption.
    etransitivity; [|exact H8]. apply prefix_app_r. reflexivity.
Qed.

Section MenuFacts.

Variable int : string -> option Z.

Lemma refused_test (last : Z) (s : string) (choice : Z) :
  refused int last s ->
  int s = Some choice ->
  ((1 <=? choice) && (choice <=? last))%Z = false.
Proof.
  unfold refused. intros Href Hint. rewrite Hint in Href.
  destruct ((1 <=? choice) && (choice <=? last))%Z eqn:E; [|reflexivity].
  apply andb_true_iff in E. destruct E as [E1 E2].
  apply Z.leb_le in E1, E2. exfalso. apply Href. lia.
Qed.

(** Whenever the difficulty loop returns, it has stored a level of the
    list and changed nothing else in the game. *)
Lemma difficulty_loop_returns (pending : Stdin) :
  forall st st',
    difficulty_loop int pending st = (Ok tt, st') ->
    exists level,
      level ∈ difficulty_levels (self st) /\
      self st' = set_selected_difficulty (Some level) (self st).
Proof.
  induction pending as [s rest IH| |]; intros st st' Hrun;
    cbn in Hrun; try discriminate.
  destruct (int s) as [choice|].
  - destruct ((1 <=? choice) && (choice <=? _))%Z eqn:E.
    + injection Hrun as <-. cbn.
      apply andb_true_iff in E. destruct E as [E1 E2].
      apply Z.leb_le in E1, E2.
      destruct (lookup_lt_is_Some_2 (difficulty_levels (self st))
                  (Z.to_nat (choice - 1))) as [level Hlevel]; [lia|].
      exists level. rewrite Hlevel. split; [|reflexivity].
      eapply list_elem_of_lookup_2. exact Hlevel.
    + apply IH in Hrun. exact Hrun.
  - apply IH in Hrun. exact Hrun.
Qed.

(** Lines that the difficulty menu turns down are answered by the notice
    and a new prompt; the game is not touched. *)
Lemma difficulty_loop_refused (pending : Stdin) (pre : list string) :
  forall st,
    Forall (refused int (Z.of_nat (length (difficulty_levels (self st))))) pre ->
    exists st',
      difficulty_loop int (lines pre pending) st
        = difficulty_loop int pending st' /\
      self st' = self st /\
      reads (world st') = reads (world st) /\
      draws (world st') = draws (world st) /\
      disk (world st') = disk (world st).
Proof.
  induction pre as [|s pre IH]; intros st Hpre.
  - exists st. auto.
  - apply Forall_cons_1 in Hpre. destruct Hpre as [Hs Hpre].
    cbn [lines difficulty_loop]. cbn [emit with_world world self].
    destruct (int s) as [choice|] eqn:Hint.
    + rewrite (refused_test _ s choice Hs Hint).
      match goal with |- context [difficulty_loop int (lines pre pending) ?s0] =>
        destruct (IH s0 Hpre) as (st' & Hrun & H1 & H2 & H3 & H4) end.
      exists st'. auto.
    + match goal with |- context [difficulty_loop int (lines pre pending) ?s0] =>
        destruct (IH s0 Hpre) as (st' & Hrun & H1 & H2 & H3 & H4) end.
      exists st'. auto.
Qed.

Lemma select_difficulty_decides (pre : list string) (s : string)
    (rest : Stdin) (choice : Z) (st : St) :
  stdin (world st) = lines pre (Line s rest) ->
  Forall (refused int (Z.of_nat (length (difficulty_levels (self st))))) pre ->
  int s = Some choice ->
  (1 <= choice <= Z.of_nat (length (difficulty_levels (self st))))%Z ->
  fst (select_difficulty int st) = Ok tt /\
  self (snd (select_difficulty int st))
    = set_selected_difficulty
        (difficulty_levels (self st) !! Z.to_nat (choice - 1)) (self st) /\
  stdin (world (snd (select_difficulty int st))) = rest /\
  reads (world (snd (select_difficulty int st))) = reads (world st) /\
  draws (world (snd (select_difficulty int st))) = draws (world st) /\
  disk (world (snd (select_difficulty int st))) = disk (world st).
Proof.
  intros Hin Hpre Hint Hrange.
  unfold select_difficulty, ask_difficulty. step_m.
  destruct (show_entries_spec (difficulty_levels (self st)) 1 st)
    as (Hr & H1 & H2 & H3 & H4 & _ & _ & H7 & _).
  destruct (show_entries 1 (difficulty_levels (self st)) st) as [r st1].
  cbn [fst snd] in *. subst r. rewrite H2, Hin.
  destruct (difficulty_loop_refused (Line s rest) pre st1)
    as (st2 & Hrun & G1 & G2 & G3 & G4); [rewrite H1; exact Hpre|].
  rewrite Hrun. cbn [difficulty_loop]. cbn [emit with_world world self].
  rewrite Hint, G1, H1.
  assert (E : ((1 <=? choice)
               && (choice <=? Z.of_nat (length (difficulty_levels (self st)))))%Z
              = true).
  { apply andb_true_iff. split; apply Z.leb_le; lia. }
  rewrite E. cbn. rewrite G1, H1, G2, H3, G3, H4, G4, H7.
  repeat split; reflexivity.
Qed.

End MenuFacts.

(** X16.  [select_difficulty] cannot be left without a difficulty: whatever
    is typed and however [int] reads it, if the menu returns, then
    [selected_difficulty] is one of the listed levels (there is no entry
    for all levels) and no other field of the game has changed. *)
Theorem difficulty_menu_always_picks_a_level :
  forall (int : string -> option Z) (st st' : St),
    select_difficulty int st = (Ok tt, st') ->
    exists level,
      level ∈ difficulty_levels (self st) /\
      self st' = set_selected_difficulty (Some level) (self st).
Proof.
  intros int st st'. unfold select_difficulty, ask_difficulty. step_m.
  destruct (show_entries_spec (difficulty_levels (self st)) 1 st)
    as (Hr & H1 & _).
  destruct (show_entries 1 (difficulty_levels (self st)) st) as [r st1].
  cbn [fst snd] in *. subst r. intros Hrun.
  apply difficulty_loop_returns in Hrun. rewrite H1 in Hrun. exact Hrun.
Qed.

Lemma difficulty_menu_always_picks_a_level_witness :
  let st := boot init (scripted (lines ["x"; "7"; "2"] Eof) [] 0) in
  exists level,
    level ∈ difficulty_levels (self st) /\
    self (snd (select_difficulty decimal st))
      = set_selected_difficulty (Some level) (self st).
Proof.
  intros st.
  apply (difficulty_menu_always_picks_a_level decimal st).
  vm_compute. reflexivity.
Defined.



(** The category menu lists every category once, in increasing order. *)
Lemma sorted_spec (names : gset string) :
  (forall c, c ∈ sorted names <-> c ∈ names) /\
  NoDup (sorted names) /\
  length (sorted names) = size names /\
  StronglySorted String.le (sorted names).
Proof.
  unfold sorted.
  pose proof (merge_sort_Permutation String.le (elements names)) as Hperm.
  split; [intros c; rewrite Hperm; apply elem_of_elements|].
  split; [rewrite Hperm; apply NoDup_elements|].
  split; [rewrite Hperm; reflexivity|].
  apply StronglySorted_merge_sort; apply _.
Qed.

Section CategoryMenuFacts.

Variable int : string -> option Z.

Lemma category_loop_returns (last : Z) (pending : Stdin) :
  forall st choice st',
    category_loop int last pending st = (Ok choice, st') ->
    (1 <= choice <= last)%Z /\ self st' = self st.
Proof.
  induction pending as [s rest IH| |]; intros st choice st' Hrun;
    cbn in Hrun; try discriminate.
  destruct (int s) as [k|].
  - destruct ((1 <=? k) && (k <=? last))%Z eqn:E.
    + injection Hrun as <- <-. cbn.
      apply andb_true_iff in E. destruct E as [E1 E2].
      apply Z.leb_le in E1, E2. split; [lia | reflexivity].
    + apply IH in Hrun. exact Hrun.
  - apply IH in Hrun. exact Hrun.
Qed.




End CategoryMenuFacts.

Lemma select_category_returns :
  forall (int : string -> option Z) (st st' : St),
    select_category int st = (Ok tt, st') ->
    (size (categories (self st)) = 0%nat -> st' = st) /\
    (size (categories (self st)) <> 0%nat ->
     exists sel,
       self st' = set_selected_category sel (self st) /\
       (sel = None \/ exists c, sel = Some c /\ c ∈ categories (self st))).
Proof.
  intros int st st'. unfold select_category, ask_category. step_m.
  destruct (Nat.eqb_spec (size (categories (self st))) 0) as [Hzero|Hsome].
  { intros [= <-]. split; [reflexivity | congruence]. }
  intros Hrun. split; [congruence|]. intros _.
  destruct (show_entries_spec (sorted (categories (self st))) 1 st)
    as (Hr & H1 & _).
  destruct (show_entries 1 (sorted (categories (self st))) st) as [r st1].
  cbn [fst snd] in *. subst r.
  match type of Hrun with context [category_loop int ?l ?p ?s0] =>
    pose proof (category_loop_returns int l p s0) as Hloop;
    destruct (category_loop int l p s0) as [[choice| |] st2]
  end; try discriminate.
  destruct (Hloop choice st2 eq_refl) as [Hrange Hself].
  cbn in Hself. rewrite H1 in Hself.
  destruct (Z.eqb_spec choice (Z.of_nat (size (categories (self st))) + 1))
    as [Hlast|Hentry]; injection Hrun as <-; cbn; rewrite Hself.
  - exists None. split; [reflexivity | left; reflexivity].
  - destruct (sorted_spec (categories (self st))) as (Hmem & _ & Hlen & _).
    destruct (lookup_lt_is_Some_2 (sorted (categories (self st)))
                (Z.to_nat (choice - 1))) as [c Hc]; [lia|].
    exists (Some c). rewrite Hc. split; [reflexivity|].
    right. exists c. split; [reflexivity|].
    apply Hmem. eapply list_elem_of_lookup_2. exact Hc.
Qed.





Lemma select_difficulty_returns (int : string -> option Z) (st st' : St) :
  select_difficulty int st = (Ok tt, st') ->
  exists level,
    level ∈ difficulty_levels (self st) /\
    self st' = set_selected_difficulty (Some level) (self st).
Proof.
  unfold select_difficulty, ask_difficulty. step_m.
  destruct (show_entries_spec (difficulty_levels (self st)) 1 st)
    as (Hr & H1 & _).
  destruct (show_entries 1 (difficulty_levels (self st)) st) as [r st1].
  cbn [fst snd] in *. subst r. intros Hrun.
  apply difficulty_loop_returns in Hrun. rewrite H1 in Hrun. exact Hrun.
Qed.

(** X20.  Once [select_difficulty] has returned in a game with the three
    levels of [__init__], the difficulty filter is always on: a question
    passes the filter of [filter_questions] only if its difficulty is the
    level selected, so a record without a [difficulty] never passes, and
    questions of every difficulty can only come back together through the
    fallback. *)
Theorem chosen_difficulty_always_filters :
  forall (int : string -> option Z) (st st' : St) (q : Question),
    difficulty_levels (self st) = ["Easy"; "Medium"; "Hard"] ->
    select_difficulty int st = (Ok tt, st') ->
    keeps (self st') q = true ->
    difficulty q = selected_difficulty (self st') /\
    (difficulty q = Some "Easy" \/ difficulty q = Some "Medium"
     \/ difficulty q = Some "Hard").
Proof.
  intros int st st' q Hlevels Hrun Hkeep.
  destruct (select_difficulty_returns int st st' Hrun) as (level & Hin & Hself).
  rewrite Hlevels in Hin.
  apply keeps_iff in Hkeep. destruct Hkeep as [_ Hd].
  rewrite Hself in Hd |- *. cbn in Hd |- *.
  assert (Hcases : level = "Easy" \/ level = "Medium" \/ level = "Hard").
  { apply list_elem_of_In in Hin. cbn in Hin. intuition congruence. }
  assert (Hd' : difficulty q = Some level).
  { destruct Hd as [Hfalse|Heq]; [|exact Heq].
    destruct Hcases as [->|[->| ->]]; discriminate Hfalse. }
  split; [exact Hd'|]. rewrite Hd'.
  destruct Hcases as [->|[->| ->]]; auto.
Qed.

Lemma chosen_difficulty_always_filters_witness :
  let st := boot (set_questions sample_data init)
              (scripted (lines ["2"] Eof) [] 0) in
  let st' := snd (select_difficulty decimal st) in
  difficulty sample_q3 = selected_difficulty (self st') /\
  (difficulty sample_q3 = Some "Easy" \/ difficulty sample_q3 = Some "Medium"
   \/ difficulty sample_q3 = Some "Hard").
Proof.
  intros st st'.
  apply (chosen_difficulty_always_filters decimal st st' sample_q3 eq_refl).
  - vm_compute. reflexivity.
  - reflexivity.
Defined.

(** ** The whole run *)

(** A load that gives no question leaves a fresh game without questions
    and without categories, and touches nothing of the world but the
    transcript. *)
Lemma load_no_bank (w : World) :
  no_bank (disk w "questions.json") ->
  exists st1,
    load_questions "questions.json" (boot init w) = (Ok tt, st1) /\
    questions (self st1) = [] /\
    size (categories (self st1)) = 0%nat /\
    difficulty_levels (self st1) = ["Easy"; "Medium"; "Hard"] /\
    score (self st1) = 0%Q /\
    user_answers (self st1) = [] /\
    current_question (self st1) = 0%nat /\
    stdin (world st1) = stdin w /\
    reads (world st1) = reads w /\
    draws (world st1) = draws w /\
    disk (world st1) = disk w.
Proof.
  intros Hno. unfold load_questions. cbn [boot world self].
  destruct (disk w "questions.json") as [| |[[|q qs]|]]; try contradiction;
    step_m; eexists; (split; [reflexivity|]); cbn; repeat split; reflexivity.
Qed.

(** With no question in the game the Selector falls back on the empty bank. *)
Lemma filter_questions_empty_bank (st : St) :
  questions (self st) = [] ->
  filter_questions st
  = (Ok [], emit MShowingAll (emit MNoMatch st)).
Proof.
  intros Hq. unfold filter_questions. step_m. rewrite Hq. reflexivity.
Qed.

(** X21.  A run that gets no question from the disk (file missing,
    unreadable, without the ["questions"] key, or with an empty array)
    skips the category menu, still asks for a difficulty until a valid
    number is typed, then announces that no question matches and that none
    is available, and returns normally: no question is asked, the clock and
    the generator are never used, no line after the difficulty is read,
    and score, counter and log are as [__init__] set them. *)
Theorem run_without_questions_stops_early :
  forall (int : string -> option Z) (w : World) (pre : list string)
         (s : string) (rest : Stdin) (choice : Z),
    no_bank (disk w "questions.json") ->
    stdin w = lines pre (Line s rest) ->
    Forall (refused int 3) pre ->
    int s = Some choice ->
    (1 <= choice <= 3)%Z ->
    fst (run_game int (boot init w)) = Ok tt /\
    stdin (world (snd (run_game int (boot init w)))) = rest /\
    reads (world (snd (run_game int (boot init w)))) = reads w /\
    draws (world (snd (run_game int (boot init w)))) = draws w /\
    score (self (snd (run_game int (boot init w)))) = 0%Q /\
    current_question (self (snd (run_game int (boot init w)))) = 0%nat /\
    user_answers (self (snd (run_game int (boot init w)))) = [] /\
    filtered_questions (self (snd (run_game int (boot init w)))) = [] /\
    exists before,
      stdout (world (snd (run_game int (boot init w))))
        = before ++ [MNoMatch; MShowingAll; MNoQuestions].
Proof.
  intros int w pre s rest choice Hno Hin Hpre Hint Hrange.
  destruct (load_no_bank w Hno)
    as (st1 & Hload & Hq1 & Hc1 & Hl1 & Hs1 & Hu1 & Hn1 & Hi1 & Hr1 & Hd1 & Hk1).
  assert (Hcat : select_category int st1 = (Ok tt, st1)).
  { unfold select_category. step_m. rewrite Hc1. reflexivity. }
  destruct (select_difficulty_decides int pre s rest choice st1)
    as (Hr2 & Hself2 & Hi2 & Hrd2 & Hdr2 & _).
  { rewrite Hi1. exact Hin. }
  { rewrite Hl1. exact Hpre. }
  { exact Hint. }
  { rewrite Hl1. exact Hrange. }
  destruct (select_difficulty int st1) as [r2 st2] eqn:Hdiff.
  cbn [fst snd] in Hr2, Hself2, Hi2, Hrd2, Hdr2. subst r2.
  assert (Hq2 : questions (self st2) = []) by (rewrite Hself2; exact Hq1).
  unfold run_game, run, display_welcome.
  unfold mbind, M_bind, bind, mret, M_ret, ret.
  rewrite Hload, Hcat, Hdiff, (filter_questions_empty_bank st2 Hq2).
  cbn. rewrite Hself2. cbn.
  rewrite Hi2, Hrd2, Hdr2, Hr1, Hd1, Hs1, Hn1, Hu1.
  do 8 (split; [reflexivity|]).
  exists (stdout (world st2)). repeat rewrite <- app_assoc. reflexivity.
Qed.

Lemma run_without_questions_stops_early_witness :
  let w := with_bank None (scripted (lines ["x"; "3"; "later"] Eof) [] 0) in
  fst (run_game decimal (boot init w)) = Ok tt /\
  stdin (world (snd (run_game decimal (boot init w)))) = Line "later" Eof /\
  reads (world (snd (run_game decimal (boot init w)))) = reads w /\
  draws (world (snd (run_game decimal (boot init w)))) = draws w /\
  score (self (snd (run_game decimal (boot init w)))) = 0%Q /\
  current_question (self (snd (run_game decimal (boot init w)))) = 0%nat /\
  user_answers (self (snd (run_game decimal (boot init w)))) = [] /\
  filtered_questions (self (snd (run_game decimal (boot init w)))) = [] /\
  exists before,
    stdout (world (snd (run_game decimal (boot init w))))
      = before ++ [MNoMatch; MShowingAll; MNoQuestions].
Proof.
  intros w.
  apply (run_without_questions_stops_early decimal w ["x"] "3"
           (Line "later" Eof) 3 I eq_refl).
  - constructor; [exact I | constructor].
  - reflexivity.
  - lia.
Defined.

(** ** Re-prompting, and the selection when few questions pass *)





(** X23.  When between one and ten questions pass the filter, the selection
    is a rearrangement of exactly those questions: nothing is dropped and
    nothing is added, so a question of the bank is in the session if and
    only if its category is the one selected (or that selection is [None]
    or empty) and its difficulty is the one selected (or that selection is
    [None] or empty). *)
Theorem small_selection_keeps_every_match :
  forall (st : St),
    List.filter (keeps (self st)) (questions (self st)) <> [] ->
    (length (List.filter (keeps (self st)) (questions (self st))) <= 10)%nat ->
    exists sel st',
      filter_questions st = (Ok sel, st') /\
      sel ≡ₚ List.filter (keeps (self st)) (questions (self st)) /\
      (forall q,
          q ∈ sel <->
          q ∈ questions (self st) /\
          (truthy (selected_category (self st)) = false
           \/ category q = selected_category (self st)) /\
          (truthy (selected_difficulty (self st)) = false
           \/ difficulty q = selected_difficulty (self st))).
Proof.
  intros st Hsome Hfew. unfold filter_questions. step_m.
  set (kept := List.filter (keeps (self st)) (questions (self st))) in *.
  assert (Hmem : forall q, q ∈ kept <->
                   q ∈ questions (self st) /\ keeps (self st) q = true).
  { intros q. subst kept.
    rewrite !list_elem_of_In, filter_In. reflexivity. }
  destruct kept as [|q0 kept'] eqn:Hkept; [congruence|].
  destruct (shuffle_spec (q0 :: kept') st) as (y & st' & Hrun & Hperm & _).
  rewrite Hrun. exists (take 10 y), st'.
  assert (Hall : take 10 y = y).
  { apply take_ge. rewrite (Permutation_length Hperm). exact Hfew. }
  rewrite Hall. split; [reflexivity|]. split; [exact Hperm|].
  intros q. rewrite Hperm, Hmem, keeps_iff. reflexivity.
Qed.

Lemma small_selection_keeps_every_match_witness :
  let st := boot (chosen sample_data (Some "Python Basics") (Some "Easy"))
              (scripted Eof [] 0) in
  exists sel st',
    filter_questions st = (Ok sel, st') /\
    sel ≡ₚ List.filter (keeps (self st)) (questions (self st)) /\
    (forall q,
        q ∈ sel <->
        q ∈ questions (self st) /\
        (truthy (selected_category (self st)) = false
         \/ category q = selected_category (self st)) /\
        (truthy (selected_difficulty (self st)) = false
         \/ difficulty q = selected_difficulty (self st))).
Proof.
  intros st. apply (small_selection_keeps_every_match st).
  - discriminate.
  - cbn. lia.
Defined.

(** ** A run that comes to its end *)

Lemma load_questions_frame (filename : string) (st : St) :
  fst (load_questions filename st) = Ok tt /\
  score (self (snd (load_questions filename st))) = score (self st) /\
  current_question (self (snd (load_questions filename st)))
    = current_question (self st) /\
  user_answers (self (snd (load_questions filename st))) = user_answers (self st).
Proof.
  unfold load_questions.
  destruct (disk (world st) filename) as [| |[qs|]]; cbn; auto.
Qed.

Lemma filter_questions_frame (st : St) :
  exists sel st',
    filter_questions st = (Ok sel, st') /\
    self st' = self st /\
    ((length sel <= 10)%nat \/ sel = questions (self st)).
Proof.
  unfold filter_questions. step_m.
  destruct (List.filter (keeps (self st)) (questions (self st)))
    as [|q0 kept] eqn:Hkept.
  - eexists _, _. split; [reflexivity|]. cbn. auto.
  - destruct (shuffle_spec (q0 :: kept) st) as (y & st' & Hrun & _ & Hself).
    rewrite Hrun. exists (take 10 y), st'. split; [reflexivity|].
    split; [exact Hself|]. left. apply firstn_le_length.
Qed.

Lemma show_results_self (st : St) : self (snd (show_results st)) = self st.
Proof.
  unfold show_results, input. step_m. cbn.
  destruct (stdin (world st)) as [s rest| |]; cbn; try reflexivity.
  destruct (String.eqb (upper s) "Y"); [|reflexivity].
  unfold review_answers. step_m.
  match goal with |- context [review_from 1 ?l ?s0] =>
    destruct (review_from_spec l 1 s0) as (_ & Hself & _) end.
  exact Hself.
Qed.

Lemma settle_questions (q : Question) (r : option string * bool) (st : St) :
  questions (self (snd (settle q r st))) = questions (self st).
Proof.
  destruct r as [[answer|] is_quick]; [|reflexivity].
  unfold settle, check_answer, item. step_m.
  destruct (correct_answer q) as [expected|]; [|reflexivity].
  destruct (String.eqb answer expected), (question q) as [qtext|], is_quick;
    reflexivity.
Qed.

Lemma turn_questions (q : Question) (st : St) :
  questions (self (snd (turn q st))) = questions (self st).
Proof.
  rewrite turn_enter.
  pose proof (ask_question_self q (entered st)) as Hself.
  destruct (ask_question q (entered st)) as [[r| |] st2]; cbn [snd] in Hself |- *;
    try (rewrite Hself; reflexivity).
  pose proof (settle_questions q r st2) as Hs.
  destruct (settle q r st2) as [[u| |] st3]; cbn [snd] in Hs |- *;
    rewrite Hs, Hself; reflexivity.
Qed.

Lemma turns_questions (qs : list Question) :
  forall st, questions (self (snd (turns qs st))) = questions (self st).
Proof.
  induction qs as [|q qs IH]; intros st; [reflexivity|].
  rewrite turns_cons.
  pose proof (turn_questions q st) as Hq.
  destruct (turn q st) as [[r| |] st1]; cbn [snd] in Hq |- *; try exact Hq.
  specialize (IH st1).
  destruct (turns qs st1) as [[rs| |] st2]; cbn [snd] in IH |- *;
    rewrite IH; exact Hq.
Qed.

Lemma percentage_bounds (s : Q) (n : nat) :
  (0 <= s)%Q -> (s <= (3 # 2) * inject_Z (Z.of_nat n))%Q ->
  (0 <= percentage s n <= 150)%Q.
Proof.
  intros Hlo Hhi. unfold percentage.
  destruct n as [|n]; [cbn; split; lra|].
  assert (Hn : (0 < inject_Z (Z.of_nat (S n)))%Q).
  { change 0%Q with (inject_Z 0). rewrite <- Zlt_Qlt. lia. }
  change ((0 <= s / inject_Z (Z.of_nat (S n)) * 100 <= 150)%Q).
  assert (H1 : (0 <= s / inject_Z (Z.of_nat (S n)))%Q).
  { apply Qle_shift_div_l; [exact Hn | lra]. }
  assert (H2 : (s / inject_Z (Z.of_nat (S n)) <= 3 # 2)%Q).
  { apply Qle_shift_div_r; [exact Hn | lra]. }
  split; lra.
Qed.

(** X24.  A run of a fresh game that returns normally leaves a consistent
    report: the question counter equals the number of questions of the
    session, which is at most 10 unless the session is the whole bank (the
    fallback); the log has at most one record per question; the score lies
    between 0 and 1.5 points per question, and the percentage between 0
    and 150. *)
Theorem completed_run_is_consistent :
  forall (int : string -> option Z) (w : World) (st' : St),
    run_game int (boot init w) = (Ok tt, st') ->
    current_question (self st') = length (filtered_questions (self st')) /\
    ((length (filtered_questions (self st')) <= 10)%nat
     \/ filtered_questions (self st') = questions (self st')) /\
    (length (user_answers (self st'))
       <= length (filtered_questions (self st')))%nat /\
    (0 <= score (self st'))%Q /\
    (score (self st') <= (3 # 2) * count (filtered_questions (self st')))%Q /\
    (0 <= percentage (score (self st')) (length (filtered_questions (self st')))
       <= 150)%Q.
Proof.
  intros int w st' Hrun.
  unfold run_game, run, display_welcome in Hrun.
  unfold mbind, M_bind, bind, mret, M_ret, ret in Hrun.
  destruct (load_questions_frame "questions.json" (boot init w))
    as (Hr1 & Hs1 & Hc1 & Hu1).
  destruct (load_questions "questions.json" (boot init w)) as [r1 st1].
  cbn [fst snd boot self] in Hr1, Hs1, Hc1, Hu1. subst r1.
  destruct (select_category int st1) as [[u2| |] st2] eqn:Hcat;
    try discriminate.
  destruct u2.
  assert (H2 : score (self st2) = 0%Q /\ current_question (self st2) = 0%nat
               /\ user_answers (self st2) = []
               /\ questions (self st2) = questions (self st1)).
  { destruct (select_category_returns int st1 st2 Hcat) as [Hzero Hsome].
    destruct (Nat.eq_dec (size (categories (self st1))) 0) as [E|E].
    - rewrite (Hzero E). auto.
    - destruct (Hsome E) as (sel & -> & _). cbn. auto. }
  destruct H2 as (Hs2 & Hc2 & Hu2 & Hq2).
  destruct (select_difficulty int st2) as [[u3| |] st3] eqn:Hdiff;
    try discriminate.
  destruct u3.
  destruct (select_difficulty_returns int st2 st3 Hdiff) as (level & _ & Hself3).
  destruct (filter_questions_frame st3) as (sel & st4 & Hfil & Hself4 & Hsel).
  rewrite Hfil in Hrun.
  assert (H4 : score (self st4) = 0%Q /\ current_question (self st4) = 0%nat
               /\ user_answers (self st4) = []
               /\ questions (self st4) = questions (self st3)).
  { rewrite Hself4, Hself3. cbn. auto. }
  destruct H4 as (Hs4 & Hc4 & Hu4 & Hq4).
  unfold update_self, print, input, time_time, get_self, tick in Hrun.
  cbn [fst snd] in Hrun.
  destruct sel as [|q0 sel'].
  { injection Hrun as <-. cbn. rewrite Hs4, Hc4, Hu4.
    split; [reflexivity|]. split; [left; cbn; lia|]. split; [cbn; lia|].
    change (count (@nil Question)) with 0%Q. repeat split; lra. }
  cbn [emit with_world with_self world self stdin set_stdout] in Hrun.
  destruct (stdin (world st4)) as [s0 rest0| |]; try discriminate.
  cbn [with_world with_self world self] in Hrun.
  match type of Hrun with context [turns (q0 :: sel') ?s5] =>
    pose proof (turns_questions (q0 :: sel') s5) as Hqs;
    pose proof (turns_spec (q0 :: sel') s5) as (_ & Hfq & Hlow & Hok);
    pose proof (turns_bounds (q0 :: sel') s5) as [Hup Hlog];
    destruct (turns (q0 :: sel') s5) as [[outs| |] st6]
  end; try discriminate.
  cbn [fst snd with_world with_self world self] in Hrun, Hqs, Hfq, Hlow, Hok, Hup, Hlog.
  destruct (Hok outs eq_refl) as (Hcur & _ & _).
  cbn in Hqs, Hfq, Hlow, Hup, Hlog, Hcur.
  rewrite Hs4 in Hlow, Hup. rewrite Hu4 in Hlog. rewrite Hc4 in Hcur.
  cbn in Hlog, Hcur.
  match type of Hrun with show_results ?s7 = _ =>
    pose proof (show_results_self s7) as Hself7 end.
  rewrite Hrun in Hself7. cbn in Hself7. rewrite Hself7. cbn.
  rewrite Hfq. cbn [length].
  split; [exact Hcur|].
  split.
  { destruct Hsel as [Hsel|Hsel]; [left; exact Hsel|].
    right. rewrite Hqs, Hq4. exact Hsel. }
  split; [exact Hlog|].
  assert (H0 : (0 <= score (self st6))%Q) by lra.
  assert (Hcap : (score (self st6) <= (3 # 2) * count (q0 :: sel'))%Q) by lra.
  split; [exact H0|]. split; [exact Hcap|].
  exact (percentage_bounds (score (self st6)) (S (length sel')) H0 Hcap).
Qed.

Lemma completed_run_is_consistent_witness :
  let w := scripted (lines ["3"; "1"; ""; "b"; "s"; "n"] Eof) [] 0 in
  let st' := snd (run_game decimal (boot init w)) in
  current_question (self st') = length (filtered_questions (self st')) /\
  ((length (filtered_questions (self st')) <= 10)%nat
   \/ filtered_questions (self st') = questions (self st')) /\
  (length (user_answers (self st'))
     <= length (filtered_questions (self st')))%nat /\
  (0 <= score (self st'))%Q /\
  (score (self st') <= (3 # 2) * count (filtered_questions (self st')))%Q /\
  (0 <= percentage (score (self st')) (length (filtered_questions (self st')))
     <= 150)%Q.
Proof.
  intros w st'.
  assert (Hrun : run_game decimal (boot init w) = (Ok tt, st'))
    by (vm_compute; reflexivity).
  exact (completed_run_is_consistent decimal w st' Hrun).
Defined.
